(** * pg_trace: wait-event capture, formatting and trace merge

    A shallow embedding of the two programs of the repository:

    - [src/ebpf/pg_trace_waits.py]: the eBPF probe pair
      ([trace_wait_start], [trace_wait_end] and the two buffer-read
      probes, written in C inside [bpf_program]) and the Python callback
      that formats each record ([get_wait_event_name],
      [print_wait_event]);
    - [src/ebpf/pg_trace_orchestrate.py]: [merge_traces] and [main].

    Machine integers are [Z] with their wrap-around written out; the two
    BPF hash tables and the file system are finite maps; what the kernel,
    the clock and the other processes supply (thread ids, timestamps, the
    files as they grow) is an input of the functions.

    [merge_traces] is given twice. In [Orchestrate] it is the step of
    [main] over text files under their paths, as the session uses it.
    In [Disk] it stands on a file system of bytes where a path leads to
    a place, an [open] can fail and a read can fail to decode; the
    properties of the merge are stated there.

    The models come first, then the vocabulary of the statements, then
    the properties: the wait timer, the formatter, the merge and the
    session. *)

From Stdlib Require Import ZArith Lia Ascii String.
From stdpp Require Import gmap strings list pretty.

Local Open Scope Z_scope.

(** ** Machine integers of the eBPF program *)

Definition u32 (z : Z) : Z := z mod 2 ^ 32.
Definition u64 (z : Z) : Z := z mod 2 ^ 64.

Definition is_u32 (z : Z) : Prop := 0 <= z < 2 ^ 32.
Definition is_u64 (z : Z) : Prop := 0 <= z < 2 ^ 64.

(** ** The eBPF program of pg_trace_waits.py *)

Module Bpf.

(** [struct wait_event_t]; the Python side reads the same record through
    the ctypes structure [WaitEvent]. [wait_name] is the [char[64]]
    buffer. *)
Record wait_event_t := WaitEvent {
  timestamp_ns : Z;
  pid : Z;
  tid : Z;
  cursor_id : Z;
  wait_event_info : Z;
  duration_ns : Z;
  wait_name : list Z
}.

(** [struct wait_event_t event = {};] *)
Definition zero_event : wait_event_t :=
  {| timestamp_ns := 0; pid := 0; tid := 0; cursor_id := 0;
     wait_event_info := 0; duration_ns := 0; wait_name := replicate 64 0 |}.

(** The three BPF objects: [BPF_HASH(wait_starts, u32, u64)],
    [BPF_HASH(pid_to_cursor, u32, u64)] and the perf output
    [wait_events], kept as the list of records submitted so far, oldest
    first. *)
Record bpf_state := BpfState {
  wait_starts : gmap Z Z;
  pid_to_cursor : gmap Z Z;
  wait_events : list wait_event_t
}.

Definition set_wait_starts (m : gmap Z Z) (st : bpf_state) : bpf_state :=
  {| wait_starts := m; pid_to_cursor := pid_to_cursor st;
     wait_events := wait_events st |}.

Definition perf_submit (e : wait_event_t) (st : bpf_state) : bpf_state :=
  {| wait_starts := wait_starts st; pid_to_cursor := pid_to_cursor st;
     wait_events := wait_events st ++ [e] |}.

(** [table.update(&k, &v)] on a BPF hash table of capacity
    [max_entries]. The capacity is fixed by the [BPF_HASH] macro of BCC,
    which is not part of the repository, so it is a parameter here. An
    update of a key that is present always succeeds; a new key is
    refused when the table is full, and the probe ignores the result. *)
Definition hash_update (max_entries : Z) (k v : Z) (m : gmap Z Z) : gmap Z Z :=
  match m !! k with
  | Some _ => <[k := v]> m
  | None => if decide (Z.of_nat (size m) < max_entries) then <[k := v]> m else m
  end.

(** Assignments to the fields of an event. *)
Definition set_timestamp_ns (v : Z) (e : wait_event_t) : wait_event_t :=
  {| timestamp_ns := v; pid := pid e; tid := tid e; cursor_id := cursor_id e;
     wait_event_info := wait_event_info e; duration_ns := duration_ns e;
     wait_name := wait_name e |}.
Definition set_pid (v : Z) (e : wait_event_t) : wait_event_t :=
  {| timestamp_ns := timestamp_ns e; pid := v; tid := tid e;
     cursor_id := cursor_id e; wait_event_info := wait_event_info e;
     duration_ns := duration_ns e; wait_name := wait_name e |}.
Definition set_tid (v : Z) (e : wait_event_t) : wait_event_t :=
  {| timestamp_ns := timestamp_ns e; pid := pid e; tid := v;
     cursor_id := cursor_id e; wait_event_info := wait_event_info e;
     duration_ns := duration_ns e; wait_name := wait_name e |}.
Definition set_cursor_id (v : Z) (e : wait_event_t) : wait_event_t :=
  {| timestamp_ns := timestamp_ns e; pid := pid e; tid := tid e;
     cursor_id := v; wait_event_info := wait_event_info e;
     duration_ns := duration_ns e; wait_name := wait_name e |}.
Definition set_duration_ns (v : Z) (e : wait_event_t) : wait_event_t :=
  {| timestamp_ns := timestamp_ns e; pid := pid e; tid := tid e;
     cursor_id := cursor_id e; wait_event_info := wait_event_info e;
     duration_ns := v; wait_name := wait_name e |}.

(** The part of [trace_wait_end] from "Create event" to the cursor
    lookup: the record that is submitted. *)
Definition create_event (pid tid end_ts duration_ns : Z)
    (cursors : gmap Z Z) : wait_event_t :=
  let event := zero_event in
  let event := set_timestamp_ns end_ts event in
  let event := set_pid pid event in
  let event := set_tid tid event in
  let event := set_duration_ns duration_ns event in
  match cursors !! pid with
  | Some cursor_id => set_cursor_id cursor_id event
  | None => event
  end.

Section Probes.
Variable max_entries : Z.

(** [trace_wait_start(ctx, wait_event_info)]. [pid_tgid] is the value
    of [bpf_get_current_pid_tgid()] and [now] that of
    [bpf_ktime_get_ns()] at the probe hit. *)
Definition trace_wait_start (pid_tgid wait_event_info now : Z)
    (st : bpf_state) : bpf_state :=
  let tid := u32 pid_tgid in
  let ts := now in
  set_wait_starts (hash_update max_entries tid ts (wait_starts st)) st.

(** [trace_wait_end(ctx)]. *)
Definition trace_wait_end (pid_tgid now : Z) (st : bpf_state) : bpf_state :=
  let pid := u32 (Z.shiftr pid_tgid 32) in
  let tid := u32 pid_tgid in
  match wait_starts st !! tid with
  | None => st
  | Some start_ts =>
      let end_ts := now in
      let duration_ns := u64 (end_ts - start_ts) in
      let st' :=
        if duration_ns <? 1000 then st
        else
          let event :=
            create_event pid tid end_ts duration_ns (pid_to_cursor st) in
          perf_submit event st in
      (* cleanup: *)
      set_wait_starts (delete tid (wait_starts st')) st'
  end.

(** [trace_buffer_read_start(ctx)]. *)
Definition trace_buffer_read_start (pid_tgid now : Z) (st : bpf_state)
    : bpf_state :=
  let tid := u32 pid_tgid in
  let ts := now in
  set_wait_starts (hash_update max_entries tid ts (wait_starts st)) st.

(** [trace_buffer_read_done(ctx)]. *)
Definition trace_buffer_read_done (pid_tgid now : Z) (st : bpf_state)
    : bpf_state :=
  trace_wait_end pid_tgid now st.

(** One probe hit, with what the kernel helpers return at that hit. *)
Inductive probe_hit :=
| WaitStartHit (pid_tgid wait_event_info now : Z)
| WaitEndHit (pid_tgid now : Z)
| BufferReadStartHit (pid_tgid now : Z)
| BufferReadDoneHit (pid_tgid now : Z).

Definition probe (h : probe_hit) (st : bpf_state) : bpf_state :=
  match h with
  | WaitStartHit pt info now => trace_wait_start pt info now st
  | WaitEndHit pt now => trace_wait_end pt now st
  | BufferReadStartHit pt now => trace_buffer_read_start pt now st
  | BufferReadDoneHit pt now => trace_buffer_read_done pt now st
  end.

(** A session: the probe hits in the order they run. *)
Definition run (hs : list probe_hit) (st : bpf_state) : bpf_state :=
  foldl (fun s h => probe h s) st hs.
End Probes.

(** The state when the program is loaded, with whatever the extension
    has published in [pid_to_cursor]. *)
Definition loaded (cursors : gmap Z Z) : bpf_state :=
  {| wait_starts := ∅; pid_to_cursor := cursors; wait_events := [] |}.

(** [bpf_get_current_pid_tgid()] of thread [tid] of process [pid]. *)
Definition pid_tgid_of (pid tid : Z) : Z := Z.lor (Z.shiftl pid 32) tid.

End Bpf.

(** ** The Python side of pg_trace_waits.py *)

Module Waits.
Import Bpf.

Local Open Scope string_scope.
Local Open Scope Z_scope.

(** [WAIT_EVENT_NAMES] *)
Definition WAIT_EVENT_NAMES : gmap Z string :=
  list_to_map
    [ (0x01000001, "LockManager");
      (0x02000001, "BufferPin");
      (0x03000001, "ActivityMain");
      (0x03000002, "ActivityAutovacuum");
      (0x04000001, "ClientRead");
      (0x04000002, "ClientWrite");
      (0x05000001, "DataFileRead");
      (0x05000002, "DataFileWrite");
      (0x05000003, "DataFileExtend");
      (0x05000004, "DataFileFlush");
      (0x05000005, "DataFileSync");
      (0x05000006, "WALWrite");
      (0x05000007, "WALSync");
      (0x06000001, "MessageQueueSend");
      (0x06000002, "MessageQueueReceive") ].

(** *** Python's format specifications used by the callback *)

Definition hex_digit (d : Z) : ascii :=
  match d with
  | 0 => "0" | 1 => "1" | 2 => "2" | 3 => "3" | 4 => "4" | 5 => "5"
  | 6 => "6" | 7 => "7" | 8 => "8" | 9 => "9" | 10 => "a" | 11 => "b"
  | 12 => "c" | 13 => "d" | 14 => "e" | _ => "f"
  end%char.

Fixpoint hex_go (fuel : nat) (z : Z) (acc : string) : string :=
  let acc' := String (hex_digit (z mod 16)) acc in
  match fuel with
  | O => acc'
  | S fuel' => if z / 16 =? 0 then acc' else hex_go fuel' (z / 16) acc'
  end.

(** [format(z, 'x')] for [0 <= z]: lower-case digits, no prefix. *)
Definition hex (z : Z) : string := hex_go (Z.to_nat (Z.log2 z)) z "".

Fixpoint zeros (n : nat) : string :=
  match n with
  | O => ""
  | S n' => String "0" (zeros n')
  end.

Definition zero_pad (width : nat) (s : string) : string :=
  zeros (width - String.length s)%nat +:+ s.

(** [f'{z:08x}']: the sign, if any, counts in the width of 8. *)
Definition format_08x (z : Z) : string :=
  if z <? 0 then "-" +:+ zero_pad 7 (hex (- z)) else zero_pad 8 (hex z).

(** The integer nearest to [a / b], ties to the even one
    ([0 <= a], [0 < b]). *)
Definition rne_div (a b : Z) : Z :=
  let q := a / b in
  let r := a mod b in
  if 2 * r <? b then q
  else if b <? 2 * r then q + 1
  else if Z.even q then q else q + 1.

(** A finite non-negative binary64 value: [(m, e)] stands for
    [m * 2 ^ e]. *)
Definition float : Type := Z * Z.

(** [n / d] on Python ints ([0 <= n], [0 < d], quotient in the normal
    range of binary64): the double nearest to the exact quotient, ties to
    even, with a 53-bit significand. *)
Definition truediv (n d : Z) : float :=
  if n =? 0 then (0, 0)
  else
    let e0 := Z.log2 n - Z.log2 d - 52 in
    let scaled (e : Z) : Z * Z :=
      if 0 <=? e then (n, d * 2 ^ e) else (n * 2 ^ (- e), d) in
    let e := if fst (scaled e0) <? 2 ^ 52 * snd (scaled e0) then e0 - 1 else e0 in
    (rne_div (fst (scaled e)) (snd (scaled e)), e).

(** [f'{x:.0f}']: the exact value of the double rounded to an integer,
    ties to even, in decimal. *)
Definition format_0f (x : float) : string :=
  let (m, e) := x in
  if 0 <=? e then pretty (m * 2 ^ e) else pretty (rne_div m (2 ^ (- e))).

(** [get_wait_event_name(wait_event_info)] *)
Definition get_wait_event_name (wait_event_info : Z) : string :=
  default ("Unknown:0x" +:+ format_08x wait_event_info)
          (WAIT_EVENT_NAMES !! wait_event_info).

(** [print_wait_event(cpu, data, size)]: the text handed to [print].
    [event] is the record behind [data]; [timestamp] is the text of
    [datetime.now().strftime('%Y-%m-%d %H:%M:%S.%f')[:-3]] at the call. *)
Definition print_wait_event (timestamp : string) (event : wait_event_t) : string :=
  let duration_us := truediv (duration_ns event) 1000 in
  let wait_name := get_wait_event_name (wait_event_info event) in
  if 0 <? cursor_id event then
    "WAIT #" +:+ pretty (cursor_id event) +:+ ": nam='" +:+ wait_name
      +:+ "' ela=" +:+ format_0f duration_us +:+ " us tim=" +:+ timestamp
  else
    "WAIT [PID " +:+ pretty (pid event) +:+ "]: nam='" +:+ wait_name
      +:+ "' ela=" +:+ format_0f duration_us +:+ " us tim=" +:+ timestamp.

End Waits.

(** ** pg_trace_orchestrate.py

    [merge_traces], [main] and the [__main__] block. [tail_trace_file]
    is defined in the script but never called, and is left out. *)

Module Orchestrate.

Local Open Scope string_scope.
Local Open Scope Z_scope.

Definition LF : ascii := "010"%char.
Definition CR : ascii := "013"%char.
Definition nl : string := String LF "".

(** [s * n] on a Python string. *)
Fixpoint str_repeat (s : string) (n : nat) : string :=
  match n with
  | O => ""
  | S n' => s +:+ str_repeat s n'
  end.

(** What [read()] returns for a file opened with [open(path, 'r')]:
    text mode translates each "\r\n" and each lone "\r" to "\n". Writing
    in text mode leaves "\n" as it is on Linux, the only platform of the
    eBPF tracer. *)
Fixpoint universal_newlines (s : string) : string :=
  match s with
  | "" => ""
  | String c rest =>
      if Ascii.eqb c CR then
        match rest with
        | String c' rest' =>
            if Ascii.eqb c' LF then String LF (universal_newlines rest')
            else String LF (universal_newlines rest)
        | "" => String LF ""
        end
      else String c (universal_newlines rest)
  end.

(** What the program does to the outside, in order. [Stdout] and
    [Stderr] carry the text of one [print] call with its line end. *)
Inductive effect :=
| Stdout (text : string)
| Stderr (text : string)
| Popen (argv : list string)
| Sleep (seconds : Z)
| SendSigint
| WaitChild.

(** The file system, regular files only, as the text of each file under
    the locale's codec, and the effects so far. *)
Record world := World {
  files : gmap string string;
  log : list effect
}.

Definition emit (e : effect) (w : world) : world :=
  {| files := files w; log := log w ++ [e] |}.

Definition set_files (fs : gmap string string) (w : world) : world :=
  {| files := fs; log := log w |}.

(** [print(text)] and [print(text, file=sys.stderr)] *)
Definition print (text : string) (w : world) : world :=
  emit (Stdout (text +:+ nl)) w.
Definition eprint (text : string) (w : world) : world :=
  emit (Stderr (text +:+ nl)) w.

(** [os.path.exists(path)] *)
Definition os_path_exists (w : world) (path : string) : bool :=
  bool_decide (is_Some (files w !! path)).

(** The header written between the two sections, as the three [write]
    calls build it. *)
Definition wait_header : string :=
  (nl +:+ str_repeat "=" 70 +:+ nl)
  +:+ ("WAIT EVENTS (from eBPF)" +:+ nl)
  +:+ (str_repeat "=" 70 +:+ nl +:+ nl).

(** [merge_traces(extension_file, wait_file, output_file)].
    [open(output_file, 'w')] truncates (or creates) the output first; the
    text written then stays in the writer's buffer and reaches the file
    when the [with] block closes it, so a read of the same path inside
    the block sees the empty file. This is the merge on files that open
    and decode, under paths that name a file each, for a text that fits
    the writer's buffer; [Disk.merge_traces] below is the function
    without these limits. *)
Definition merge_traces (extension_file wait_file output_file : string)
    (w : world) : world :=
  let w := print ("Merging traces into: " +:+ output_file) w in
  let w := set_files (<[output_file := ""]> (files w)) w in
  let out := "" in
  let out :=
    match files w !! extension_file with
    | Some ef => out +:+ universal_newlines ef
    | None => out
    end in
  let out :=
    match files w !! wait_file with
    | Some wf => out +:+ wait_header +:+ universal_newlines wf
    | None => out
    end in
  let w := set_files (<[output_file := out]> (files w)) w in
  print ("Trace complete: " +:+ output_file) w.

(** The parsed command line. *)
Record args := Args {
  arg_pid : Z;
  arg_trace_file : string;
  arg_output : option string;
  arg_wait_only : bool
}.

(** What the program cannot decide by itself. The trace file and the
    wait log are written by other processes while [main] runs, so the
    file system is given at each point where [main] looks at it. *)
Record env := Env {
  euid : Z;
  fs_start : gmap string string;
  ebpf_script : string;
  ebpf_script_exists : bool;
  tracer_exited : option string;
  polls : list (gmap string string);
  fs_at_stop : gmap string string
}.

(** Computations of [main]: a state over [world] that [sys.exit(code)]
    leaves early. *)
Definition M (A : Type) : Type := world -> (A + Z) * world.

#[global] Instance M_ret : MRet M := fun A (a : A) w => (inl a, w).
#[global] Instance M_bind : MBind M := fun A B (k : A -> M B) (c : M A) w =>
  match c w with
  | (inl a, w') => k a w'
  | (inr code, w') => (inr code, w')
  end.
Definition sys_exit {A} (code : Z) : M A := fun w => (inr code, w).
Definition lift (f : world -> world) : M unit := fun w => (inl tt, f w).
Definition ask {A} (f : world -> A) : M A := fun w => (inl (f w), w).

(** [args.output or f"{args.trace_file}.complete"]: [None] and the empty
    string are both false. *)
Definition output_file_of (a : args) : string :=
  match arg_output a with
  | Some o => if String.eqb o "" then arg_trace_file a +:+ ".complete" else o
  | None => arg_trace_file a +:+ ".complete"
  end.

Definition wait_file_of (a : args) : string :=
  "/tmp/pg_trace_waits_" +:+ pretty (arg_pid a) +:+ ".log".

(** The monitoring loop of [main], one turn per entry of [polls], until
    [KeyboardInterrupt] ends it. *)
Fixpoint monitor (trace_file : string) (snaps : list (gmap string string))
    (last_size : nat) : M unit :=
  match snaps with
  | [] => mret tt
  | fs :: snaps' =>
      lift (set_files fs) ;;
      ask (fun w => files w !! trace_file) ≫= fun present : option string =>
      match present with
      | Some content =>
          let size := String.length content in
          (if bool_decide (size = last_size) then mret tt
           else lift (emit (Stdout (String CR "" +:+ "Trace file size: "
                                      +:+ pretty (Z.of_nat size) +:+ " bytes")))) ;;
          lift (emit (Sleep 1)) ;;
          monitor trace_file snaps' size
      | None =>
          lift (emit (Sleep 1)) ;;
          monitor trace_file snaps' last_size
      end
  end.

(** [main()], from the parsed command line on. What the tracer does
    to the files is not followed before the session stops
    ([fs_at_stop]), and the merge is the one above, which raises
    nothing. *)
Definition main (e : env) (a : args) : M unit :=
  ask (fun w => os_path_exists w (arg_trace_file a)) ≫= fun found : bool =>
  (if negb found then
     lift (eprint ("Error: Trace file not found: " +:+ arg_trace_file a)) ;;
     lift (eprint "Have you called pg_trace_start_trace() in PostgreSQL?") ;;
     sys_exit 1
   else mret tt) ;;
  let output_file := output_file_of a in
  let wait_file := wait_file_of a in
  lift (print (str_repeat "=" 70)) ;;
  lift (print "PostgreSQL Oracle 10046-Style Trace (MVP)") ;;
  lift (print (str_repeat "=" 70)) ;;
  lift (print ("PID: " +:+ pretty (arg_pid a))) ;;
  lift (print ("Extension trace: " +:+ arg_trace_file a)) ;;
  lift (print ("Wait events: " +:+ wait_file)) ;;
  lift (print ("Combined output: " +:+ output_file)) ;;
  lift (print (str_repeat "=" 70)) ;;
  lift (print "") ;;
  (if negb (ebpf_script_exists e) then
     lift (eprint ("Error: eBPF script not found: " +:+ ebpf_script e)) ;;
     sys_exit 1
   else mret tt) ;;
  lift (print "Starting eBPF wait event tracer...") ;;
  lift (emit (Popen ["python3"; ebpf_script e; "-p"; pretty (arg_pid a);
                     "-o"; wait_file])) ;;
  lift (emit (Sleep 2)) ;;
  match tracer_exited e with
  | Some stderr_text =>
      lift (eprint "Error starting eBPF tracer:") ;;
      lift (eprint stderr_text) ;;
      sys_exit 1
  | None =>
      lift (print "eBPF tracer running") ;;
      lift (print "") ;;
      lift (print "Monitoring trace file...") ;;
      lift (print "Press Ctrl-C when done") ;;
      lift (print "") ;;
      monitor (arg_trace_file a) (polls e) 0 ;;
      lift (print (nl +:+ nl +:+ "Stopping trace...")) ;;
      lift (emit SendSigint) ;;
      lift (emit WaitChild) ;;
      lift (set_files (fs_at_stop e)) ;;
      lift (print (nl +:+ "Merging trace files...")) ;;
      lift (merge_traces (arg_trace_file a) wait_file output_file) ;;
      ask (fun w => os_path_exists w wait_file) ≫= fun found_wait : bool =>
      if found_wait then lift (fun w => set_files (delete wait_file (files w)) w)
      else mret tt
  end.

(** The [if __name__ == '__main__':] block, from the world at start to
    the exit status of the process and the world it leaves. *)
Definition program (e : env) (a : args) : Z * world :=
  let w0 := {| files := fs_start e; log := [] |} in
  if negb (euid e =? 0) then
    (1, eprint "Error: This script must be run as root (for eBPF)" w0)
  else
    match main e a w0 with
    | (inl _, w) => (0, w)
    | (inr code, w) => (code, w)
    end.

End Orchestrate.

(** ** pg_trace_waits.py: locating the binary and [main] *)

Module Tracer.
Import Bpf Waits Orchestrate.

Local Open Scope string_scope.
Local Open Scope Z_scope.

(** [c.isspace()] for a character below U+0100. *)
Definition is_space (c : ascii) : bool :=
  bool_decide (nat_of_ascii c ∈ [9; 10; 11; 12; 13; 28; 29; 30; 31; 32; 133; 160]%nat).

Fixpoint lstrip (s : string) : string :=
  match s with
  | "" => ""
  | String c rest => if is_space c then lstrip rest else s
  end.

Fixpoint rstrip (s : string) : string :=
  match s with
  | "" => ""
  | String c rest =>
      match rstrip rest with
      | "" => if is_space c then "" else String c ""
      | kept => String c kept
      end
  end.

(** [s.strip()] *)
Definition strip (s : string) : string := rstrip (lstrip s).

(** The places [find_postgres_binary] tries when [which] fails. *)
Definition common_locations : list string :=
  [ "/usr/pgsql-14/bin/postgres";
    "/usr/lib/postgresql/14/bin/postgres";
    "/usr/local/pgsql/bin/postgres" ].

(** [find_postgres_binary()]. [which] is the standard output of
    [which postgres] when it ran and exited with status 0, and [None]
    when [subprocess.run] raised; [existing] holds the paths for which
    [os.path.exists] is true. *)
Definition find_postgres_binary (which : option string)
    (existing : gset string) : option string :=
  match which with
  | Some stdout => Some (strip stdout)
  | None =>
      (fix try_locations (paths : list string) : option string :=
         match paths with
         | [] => None
         | path :: paths' =>
             if bool_decide (path ∈ existing) then Some path
             else try_locations paths'
         end) common_locations
  end.

(** The parsed command line of the tracer. *)
Record tracer_args := TracerArgs {
  targ_pid : Z;
  targ_verbose : bool;
  targ_output : option string
}.

(** What the tracer gets from outside: the two inputs of
    [find_postgres_binary], the message of the exception raised by
    [BPF(text=bpf_program)] or by [attach_uprobe], if any, and the records
    handed to the callback before [KeyboardInterrupt], each with the text
    of [datetime.now()] at that call. *)
Record tracer_env := TracerEnv {
  which_postgres : option string;
  existing_paths : gset string;
  bpf_load_error : option string;
  attach_error : option string;
  delivered : list (string * wait_event_t)
}.

(** The world of the tracer: the file system and effects, and the file
    that [sys.stdout] has been redirected to, if any. *)
Record tracer_state := TracerState {
  tworld : world;
  redirected : option string
}.

(** [print(text)]: to the redirected file, which is line buffered, or to
    the standard output. *)
Definition tprint (text : string) (st : tracer_state) : tracer_state :=
  match redirected st with
  | Some path =>
      {| tworld := set_files
                     (<[path := default "" (files (tworld st) !! path)
                                +:+ text +:+ nl]> (files (tworld st)))
                     (tworld st);
         redirected := redirected st |}
  | None => {| tworld := print text (tworld st); redirected := None |}
  end.

(** [print(text, file=sys.stderr)] *)
Definition teprint (text : string) (st : tracer_state) : tracer_state :=
  {| tworld := eprint text (tworld st); redirected := redirected st |}.

(** [sys.stdout = open(path, 'w', buffering=1)] *)
Definition redirect (path : string) (st : tracer_state) : tracer_state :=
  {| tworld := set_files (<[path := ""]> (files (tworld st))) (tworld st);
     redirected := Some path |}.

(** The callback on one record: the line, then the flush. *)
Definition on_event (st : tracer_state) (r : string * wait_event_t)
    : tracer_state :=
  tprint (print_wait_event r.1 r.2) st.

(** [main()] of pg_trace_waits.py, with the exit status of the process. *)
Definition main (e : tracer_env) (a : tracer_args) (st : tracer_state)
    : Z * tracer_state :=
  let postgres_bin := find_postgres_binary (which_postgres e) (existing_paths e) in
  match postgres_bin with
  | None | Some "" =>
      (1, teprint "Please specify pg_config or postgres path"
            (teprint "Error: Could not find postgres binary" st))
  | Some bin =>
      let st :=
        if targ_verbose a then
          tprint ("Tracing PID: " +:+ pretty (targ_pid a))
            (tprint ("Using PostgreSQL binary: " +:+ bin) st)
        else st in
      let st :=
        match targ_output a with
        | None | Some "" => st
        | Some path => redirect path st
        end in
      match bpf_load_error e with
      | Some err =>
          (1, teprint "Make sure you have BCC installed and running as root"
                (teprint ("Error loading eBPF program: " +:+ err) st))
      | None =>
          match attach_error e with
          | Some err =>
              (1, teprint "  3. You have root privileges"
                    (teprint "  2. Binary has symbols (not stripped)"
                       (teprint "  1. PID is correct and process is running"
                          (teprint "Make sure:"
                             (teprint ("Error attaching to PostgreSQL: " +:+ err)
                                st)))))
          | None =>
              let st :=
                if targ_verbose a then
                  tprint "Attached to pgstat_report_wait_start/end" st
                else st in
              let st :=
                tprint ""
                  (tprint "Press Ctrl-C to stop"
                     (tprint ("=== Tracing PostgreSQL wait events for PID "
                                +:+ pretty (targ_pid a) +:+ " ===") st)) in
              let st := foldl on_event st (delivered e) in
              (0, tprint (nl +:+ "=== Trace stopped ===") st)
          end
      end
  end.

End Tracer.

(** ** [merge_traces] on a file system that can refuse

    [Orchestrate] keeps each file as a text under its path, and every
    [open] there succeeds. The merge itself depends on more than that:
    two spellings of a path may lead to one file, a path may lead
    nowhere or to a directory, a file may be closed to the process, its
    bytes may not decode, and a file that is both written and read is
    read through the writer's buffer. [Disk] has the file system with
    these, and [merge_traces] with the exceptions it lets through.

    A file holds bytes. The text that [read()] returns is kept as the
    bytes that encode it, which is sound for an encoding that decodes
    what it encodes and keeps the line-end characters as single bytes of
    their own, as UTF-8, the default, does. A path is the Python string
    that the function is given, and a printed line the string that
    [print] is given. The standard output is taken to accept what is
    printed, and the storage to have room. Nodes other than regular
    files and directories (devices, pipes) are left out. *)

Module Disk.
Import Orchestrate.

Local Open Scope string_scope.
Local Open Scope bool_scope.

(** *** The strict UTF-8 decoder: which byte strings it accepts *)

Definition byte_in (lo hi : N) (c : ascii) : bool :=
  (lo <=? N_of_ascii c)%N && (N_of_ascii c <=? hi)%N.

Definition continuation (c : ascii) : bool := byte_in 0x80 0xBF c.

(** The first two bytes of a three-byte sequence: no overlong form, no
    surrogate. *)
Definition three_bytes (c0 c1 : ascii) : bool :=
  (byte_in 0xE0 0xE0 c0 && byte_in 0xA0 0xBF c1)
  || (byte_in 0xE1 0xEC c0 && continuation c1)
  || (byte_in 0xED 0xED c0 && byte_in 0x80 0x9F c1)
  || (byte_in 0xEE 0xEF c0 && continuation c1).

(** The first two bytes of a four-byte sequence: no overlong form,
    nothing above U+10FFFF. *)
Definition four_bytes (c0 c1 : ascii) : bool :=
  (byte_in 0xF0 0xF0 c0 && byte_in 0x90 0xBF c1)
  || (byte_in 0xF1 0xF3 c0 && continuation c1)
  || (byte_in 0xF4 0xF4 c0 && byte_in 0x80 0x8F c1).

Fixpoint valid_utf8 (s : string) : bool :=
  match s with
  | "" => true
  | String c0 s1 =>
      if byte_in 0x00 0x7F c0 then valid_utf8 s1
      else
        match s1 with
        | "" => false
        | String c1 s2 =>
            if byte_in 0xC2 0xDF c0 then continuation c1 && valid_utf8 s2
            else
              match s2 with
              | "" => false
              | String c2 s3 =>
                  if byte_in 0xE0 0xEF c0 then
                    three_bytes c0 c1 && continuation c2 && valid_utf8 s3
                  else
                    match s3 with
                    | "" => false
                    | String c3 s4 =>
                        four_bytes c0 c1 && continuation c2 && continuation c3
                        && valid_utf8 s4
                    end
              end
        end
  end.

(** *** The file system *)

Inductive node :=
| File (content : string)
| Directory.

(** The exceptions of [open] and [read()]. [FileNotFoundError] stands
    for every error of a path that leads nowhere. *)
Inductive exn :=
| FileNotFoundError
| IsADirectoryError
| PermissionError
| UnicodeDecodeError.

(** What the machine fixes for a run.
    - [locate path] is the place the path leads to, once the working
      directory, the spelling and the links are resolved: the node that
      is there, or the one that [open(path, 'w')] would create; [None]
      when the path leads nowhere (the empty path, a missing
      directory). Paths with the same place are the same file.
    - [decodes] tells which byte strings the default encoding accepts.
    - [read_denied] and [write_denied] are the places the process may
      not open for reading, for writing.
    - [flush_point written] is how much of the text given to a writer
      has left its buffers for the file when the file is next read. *)
Record host := Host {
  locate : string -> option N;
  decodes : string -> bool;
  read_denied : gset N;
  write_denied : gset N;
  flush_point : string -> nat
}.

(** The nodes that exist, and the effects so far. *)
Record disk := MkDisk {
  nodes : gmap N node;
  shown : list effect
}.

Definition set_nodes (m : gmap N node) (d : disk) : disk :=
  {| nodes := m; shown := shown d |}.

(** [print(text)] *)
Definition print (text : string) (d : disk) : disk :=
  {| nodes := nodes d; shown := shown d ++ [Stdout (text +:+ nl)] |}.

(** [os.path.exists(path)]: true of a directory too. *)
Definition os_path_exists (h : host) (d : disk) (path : string) : bool :=
  match locate h path with
  | Some i => bool_decide (is_Some (nodes d !! i))
  | None => false
  end.

(** [with open(path, 'r') as f: f.read()]: the text of the file, line
    ends translated, or the exception. Nothing is decoded of an empty
    file. *)
Definition read_file (h : host) (d : disk) (path : string) : exn + string :=
  match locate h path with
  | None => inl FileNotFoundError
  | Some i =>
      match nodes d !! i with
      | None => inl FileNotFoundError
      | Some n =>
          if bool_decide (i ∈ read_denied h) then inl PermissionError
          else
            match n with
            | Directory => inl IsADirectoryError
            | File content =>
                if String.eqb content "" || decodes h content
                then inr (universal_newlines content)
                else inl UnicodeDecodeError
            end
      end
  end.

(** [open(path, 'w')]: the place of the file, now empty, or the
    exception. *)
Definition open_write (h : host) (path : string) (d : disk) : exn + N * disk :=
  match locate h path with
  | None => inl FileNotFoundError
  | Some i =>
      match nodes d !! i with
      | Some Directory => inl IsADirectoryError
      | _ =>
          if bool_decide (i ∈ write_denied h) then inl PermissionError
          else inr (i, set_nodes (<[i := File ""]> (nodes d)) d)
      end
  end.

(** The file at [out] once it holds [written]: what leaving the [with]
    block of the writer makes of it, on return and on an exception
    alike. *)
Definition close (out : N) (written : string) (d : disk) : disk :=
  set_nodes (<[out := File written]> (nodes d)) d.

(** How a call ends. *)
Inductive outcome :=
| Returned (d : disk)
| Raised (e : exn) (d : disk).

(** [merge_traces(extension_file, wait_file, output_file)]. [written]
    is the text given to [out.write] so far. When the wait log is opened
    the output file holds the part of it that has been flushed, which
    matters when the wait log is the output file itself. *)
Definition merge_traces (h : host) (extension_file wait_file output_file : string)
    (d : disk) : outcome :=
  let d := print ("Merging traces into: " +:+ output_file) d in
  match open_write h output_file d with
  | inl e => Raised e d
  | inr (out, d) =>
      let sql :=
        if os_path_exists h d extension_file then read_file h d extension_file
        else inr "" in
      match sql with
      | inl e => Raised e (close out "" d)
      | inr sql =>
          let written := sql in
          if os_path_exists h d wait_file then
            let written := written +:+ wait_header in
            let flushed := substring 0 (flush_point h written) written in
            match read_file h (close out flushed d) wait_file with
            | inl e => Raised e (close out written d)
            | inr waits =>
                Returned (print ("Trace complete: " +:+ output_file)
                            (close out (written +:+ waits) d))
            end
          else
            Returned (print ("Trace complete: " +:+ output_file)
                        (close out written d))
      end
  end.

End Disk.

(** * Vocabulary of the properties *)

Module Vocabulary.
Import Bpf Waits Orchestrate.

Local Open Scope Z_scope.

(** What one probe hit, or a whole session, adds to the perf output. *)
Definition submits (st st' : bpf_state) (l : list wait_event_t) : Prop :=
  wait_events st' = wait_events st ++ l.

(** What holds of every record that [trace_wait_end] builds, given the
    cursor table at that moment. *)
Record well_formed_event (cursors : gmap Z Z) (e : wait_event_t) : Prop := {
  wf_info : wait_event_info e = 0;
  wf_cursor : cursor_id e = default 0 (cursors !! pid e);
  wf_duration : 1000 <= duration_ns e < 2 ^ 64;
  wf_name : wait_name e = replicate 64 0
}.

(** The [n] low hexadecimal digits of [z], most significant first: what
    "[n] hex digits, zero-padded" means. *)
Fixpoint fixed_hex (n : nat) (z : Z) : string :=
  match n with
  | O => ""
  | S n' => fixed_hex n' (z / 16) +:+ String (hex_digit (z mod 16)) ""
  end.

(** The number that a string of hexadecimal digits denotes, as
    [int(s, 16)] reads it. *)
Definition hex_digit_value (c : ascii) : Z :=
  let n := Z.of_nat (nat_of_ascii c) in
  if n <? 58 then n - 48 else n - 87.

Fixpoint hex_value_from (acc : Z) (s : string) : Z :=
  match s with
  | "" => acc
  | String c s' => hex_value_from (16 * acc + hex_digit_value c) s'
  end.

Definition hex_value (s : string) : Z := hex_value_from 0 s.

(** What the name field of a line is, for a 32-bit code. *)
Definition rendered_name (code : Z) : string :=
  match WAIT_EVENT_NAMES !! code with
  | Some name => name
  | None => "Unknown:0x" +:+ fixed_hex 8 code
  end.

(** The delimiter block as the design describes it: a line of 70 "=",
    the line "WAIT EVENTS (from eBPF)", a line of 70 "=", a blank line. *)
Definition spec_delimiter_block : string :=
  (str_repeat "=" 70 +:+ nl)
  +:+ ("WAIT EVENTS (from eBPF)" +:+ nl)
  +:+ (str_repeat "=" 70 +:+ nl)
  +:+ nl.

(** Whether a text holds a carriage return. *)
Fixpoint has_cr (s : string) : bool :=
  match s with
  | "" => false
  | String c rest => Ascii.eqb c CR || has_cr rest
  end.

(** The tracer has been started: a [Popen] is among the effects. *)
Definition tracer_started (w : world) : Prop :=
  exists argv, Popen argv ∈ log w.

(** The session has reached its running phase: the tracer was started,
    survived the grace period, and [main] has announced it. *)
Definition reached_running (w : world) : Prop :=
  Stdout ("eBPF tracer running" +:+ nl) ∈ log w.

(** The banner that [main] prints once the trace file is found. *)
Definition banner (a : args) (w : world) : world :=
  print ""
    (print (str_repeat "=" 70)
       (print ("Combined output: " +:+ output_file_of a)
          (print ("Wait events: " +:+ wait_file_of a)
             (print ("Extension trace: " +:+ arg_trace_file a)
                (print ("PID: " +:+ pretty (arg_pid a))
                   (print (str_repeat "=" 70)
                      (print "PostgreSQL Oracle 10046-Style Trace (MVP)"
                         (print (str_repeat "=" 70) w)))))))).

End Vocabulary.

(** * Vocabulary of the further properties *)

Module SessionVocabulary.
Import Bpf Waits Orchestrate Tracer Vocabulary.

Local Open Scope Z_scope.

(** What the kernel helpers returned at a probe hit. *)
Definition hit_pid_tgid (h : probe_hit) : Z :=
  match h with
  | WaitStartHit pt _ _ | WaitEndHit pt _
  | BufferReadStartHit pt _ | BufferReadDoneHit pt _ => pt
  end.

Definition hit_time (h : probe_hit) : Z :=
  match h with
  | WaitStartHit _ _ now | WaitEndHit _ now
  | BufferReadStartHit _ now | BufferReadDoneHit _ now => now
  end.

(** The thread and the process of a hit, as the probes compute them. *)
Definition hit_tid (h : probe_hit) : Z := u32 (hit_pid_tgid h).
Definition hit_pid (h : probe_hit) : Z := u32 (Z.shiftr (hit_pid_tgid h) 32).

(** The hits that run [trace_wait_end]. *)
Definition is_end_hit (h : probe_hit) : bool :=
  match h with
  | WaitEndHit _ _ | BufferReadDoneHit _ _ => true
  | _ => false
  end.

(** A list of numbers that never goes down. *)
Fixpoint non_decreasing (l : list Z) : Prop :=
  match l with
  | [] => True
  | x :: rest => Forall (fun y => x <= y) rest /\ non_decreasing rest
  end.

(** A record whose fields fit the types of [struct wait_event_t]. *)
Definition fits_struct (e : wait_event_t) : Prop :=
  is_u64 (timestamp_ns e) /\ is_u32 (pid e) /\ is_u32 (tid e) /\
  is_u64 (cursor_id e) /\ is_u32 (wait_event_info e) /\
  is_u64 (duration_ns e) /\ length (wait_name e) = 64%nat.

(** The lines of the callback for a list of delivered records, each
    with its line end. *)
Fixpoint event_lines (rs : list (string * wait_event_t)) : string :=
  match rs with
  | [] => ""
  | r :: rest => (print_wait_event r.1 r.2 +:+ nl) +:+ event_lines rest
  end.

(** The tracer before any redirection of its standard output. *)
Definition tracer_start (w : world) : tracer_state :=
  {| tworld := w; redirected := None |}.

(** The binary is found: [find_postgres_binary] returns a non-empty
    text. *)
Definition binary_found (e : tracer_env) : Prop :=
  exists bin, find_postgres_binary (which_postgres e) (existing_paths e) = Some bin /\
              bin <> ""%string.

(** The tracer once its output goes to [path], which holds [content],
    over the other files of [w0] and with the effects [effects]. *)
Definition writing (w0 : world) (effects : list effect) (path content : string)
    : tracer_state :=
  {| tworld := {| files := <[path := content]> (files w0); log := effects |};
     redirected := Some path |}.

(** What the tracer has printed when it stops, after the lines that
    [--verbose] adds before the redirection. *)
Definition tracer_log (a : tracer_args) (rs : list (string * wait_event_t))
    : string :=
  (if targ_verbose a then "Attached to pgstat_report_wait_start/end" +:+ nl
   else "")
  +:+ ("=== Tracing PostgreSQL wait events for PID " +:+ pretty (targ_pid a)
         +:+ " ===" +:+ nl)
  +:+ ("Press Ctrl-C to stop" +:+ nl)
  +:+ nl
  +:+ event_lines rs
  +:+ (nl +:+ "=== Trace stopped ===" +:+ nl).

(** A tracer state whose output is not redirected, over the files of
    [w]. *)
Definition plain (w : world) (st : tracer_state) : Prop :=
  redirected st = None /\ files (tworld st) = files w.

(** The state of [main] once the tracer has been started and the grace
    period is over. *)
Definition after_grace (e : env) (a : args) (w : world) : world :=
  emit (Sleep 2)
    (emit (Popen ["python3"; ebpf_script e; "-p"; pretty (arg_pid a);
                  "-o"; wait_file_of a])%string
       (print "Starting eBPF wait event tracer..." (banner a w))).

End SessionVocabulary.

(** * Vocabulary of the merge on a file system *)

Module DiskVocabulary.
Import Orchestrate Disk Vocabulary.

Local Open Scope string_scope.

(** [path] leads to the regular file at [i], which holds [content], may
    be read, and decodes; an empty file has nothing to decode. *)
Definition text_file (h : host) (d : disk) (path : string) (i : N)
    (content : string) : Prop :=
  locate h path = Some i /\ nodes d !! i = Some (File content) /\
  (i ∉ read_denied h) /\ (content = "" \/ decodes h content = true).

(** [path] leads to [o], where a file can be opened for writing: there
    is a regular file or nothing yet at the place, and it is not closed
    to the process. *)
Definition writable (h : host) (d : disk) (path : string) (o : N) : Prop :=
  locate h path = Some o /\
  (nodes d !! o = None \/ exists content, nodes d !! o = Some (File content)) /\
  (o ∉ write_denied h).

(** There is nothing at [path], and it is not another name of the place
    [o]. *)
Definition missing (h : host) (d : disk) (path : string) (o : N) : Prop :=
  os_path_exists h d path = false /\ locate h path <> Some o.

(** What the file at [path] holds, if it is a regular file. *)
Definition content_at (h : host) (d : disk) (path : string) : option string :=
  match locate h path with
  | Some i =>
      match nodes d !! i with
      | Some (File content) => Some content
      | _ => None
      end
  | None => None
  end.

(** The disk a call leaves, and the exception it ends with, if any. *)
Definition disk_after (r : outcome) : disk :=
  match r with
  | Returned d | Raised _ d => d
  end.

Definition raised (r : outcome) : option exn :=
  match r with
  | Returned _ => None
  | Raised e _ => Some e
  end.

(** The two progress lines of a merge that returns. *)
Definition merge_lines (out : string) : list effect :=
  [Stdout ("Merging traces into: " +:+ out +:+ nl);
   Stdout ("Trace complete: " +:+ out +:+ nl)].

(** A byte string from the values of its bytes. *)
Definition bytes (l : list N) : string :=
  string_of_list_ascii (map ascii_of_N l).

(** A machine for the examples: the paths of [names] lead to the places
    given, every other path leads nowhere; UTF-8; nothing is denied;
    the writer's buffer holds everything until the file is closed. *)
Fixpoint place (names : list (string * N)) (path : string) : option N :=
  match names with
  | [] => None
  | (p, i) :: rest => if String.eqb path p then Some i else place rest path
  end.

Definition utf8_host (names : list (string * N)) : host :=
  {| locate := place names; decodes := valid_utf8;
     read_denied := ∅; write_denied := ∅; flush_point := fun _ => 0%nat |}.

End DiskVocabulary.

(** * Properties *)

(** ** Strings *)

Module StringFacts.

Lemma append_cons (x : ascii) (a b : string) :
  String x a +:+ b = String x (a +:+ b).
Proof. reflexivity. Qed.

Lemma append_assoc (a b c : string) : (a +:+ b) +:+ c = a +:+ (b +:+ c).
Proof.
  induction a as [|x a IH]; [done|]. rewrite !append_cons. by f_equal.
Qed.

Lemma append_nil_r (a : string) : a +:+ "" = a.
Proof.
  induction a as [|x a IH]; [done|]. rewrite append_cons. by f_equal.
Qed.

Lemma length_append (a b : string) :
  String.length (a +:+ b) = (String.length a + String.length b)%nat.
Proof.
  induction a as [|x a IH]; [done|]. rewrite append_cons. simpl. by f_equal.
Qed.

End StringFacts.

(** ** The wait timer *)

Module BpfFacts.
Import Bpf.

Lemma u32_range z : is_u32 (u32 z).
Proof. unfold is_u32, u32. apply Z.mod_pos_bound. lia. Qed.

Lemma u64_range z : is_u64 (u64 z).
Proof. unfold is_u64, u64. apply Z.mod_pos_bound. lia. Qed.

Lemma testbit_above z n k : 0 <= z < 2 ^ k -> 0 <= k <= n -> Z.testbit z n = false.
Proof.
  intros Hz Hk. destruct (Z.eq_dec z 0) as [->|Hne]; [apply Z.bits_0|].
  apply Z.bits_above_log2; [lia|].
  assert (Z.log2 z < k) by (apply Z.log2_lt_pow2; lia). lia.
Qed.

(** The two halves of [bpf_get_current_pid_tgid()]. *)
Lemma tid_of_pid_tgid p t : is_u32 t -> u32 (pid_tgid_of p t) = t.
Proof.
  intros Ht. unfold u32, pid_tgid_of. rewrite <- Z.land_ones by lia.
  apply Z.bits_inj'. intros n Hn.
  rewrite Z.land_spec, Z.lor_spec, Z.shiftl_spec by lia.
  destruct (Z.ltb_spec n 32).
  - rewrite Z.ones_spec_low by lia. rewrite (Z.testbit_neg_r p) by lia.
    simpl. apply andb_true_r.
  - rewrite Z.ones_spec_high by lia. rewrite andb_false_r.
    symmetry. apply (testbit_above t n 32); [exact Ht | lia].
Qed.

Lemma pid_of_pid_tgid p t :
  is_u32 p -> is_u32 t -> u32 (Z.shiftr (pid_tgid_of p t) 32) = p.
Proof.
  intros Hp Ht. unfold u32, pid_tgid_of. rewrite <- Z.land_ones by lia.
  apply Z.bits_inj'. intros n Hn.
  rewrite Z.land_spec, Z.shiftr_spec, Z.lor_spec, Z.shiftl_spec by lia.
  replace (n + 32 - 32) with n by lia.
  rewrite (testbit_above t (n + 32) 32) by (unfold is_u32 in Ht; lia).
  rewrite orb_false_r.
  destruct (Z.ltb_spec n 32).
  - rewrite Z.ones_spec_low by lia. apply andb_true_r.
  - rewrite Z.ones_spec_high by lia. rewrite andb_false_r.
    symmetry. apply (testbit_above p n 32); [exact Hp | lia].
Qed.

(** *** The hash table *)

Lemma hash_update_lookup_other mx k v m j :
  j <> k -> hash_update mx k v m !! j = m !! j.
Proof.
  intros Hne. unfold hash_update.
  destruct (m !! k); [|case_decide]; try done; by rewrite lookup_insert_ne.
Qed.

Lemma hash_update_present mx k v m :
  is_Some (m !! k) -> hash_update mx k v m = <[k := v]> m.
Proof. intros [x Hx]. unfold hash_update. by rewrite Hx. Qed.

Lemma hash_update_room mx k v m :
  Z.of_nat (size m) < mx -> hash_update mx k v m = <[k := v]> m.
Proof.
  intros Hroom. unfold hash_update.
  destruct (m !! k); [done|]. by rewrite decide_True.
Qed.

(** What is stored under [k] after an update is the new value, or
    nothing when the table was full and [k] was new. *)
Lemma hash_update_lookup mx k v m :
  hash_update mx k v m !! k = Some v \/
  (hash_update mx k v m = m /\ m !! k = None /\ mx <= Z.of_nat (size m)).
Proof.
  unfold hash_update. destruct (m !! k) eqn:Hk.
  - left. apply lookup_insert_eq.
  - case_decide.
    + left. apply lookup_insert_eq.
    + right. repeat split; try done; lia.
Qed.

(** A second update of the same key leaves no trace of the first. *)
Lemma hash_update_twice mx k v1 v2 m :
  hash_update mx k v2 (hash_update mx k v1 m) = hash_update mx k v2 m.
Proof.
  destruct (hash_update_lookup mx k v1 m) as [Hs | (Heq & _ & _)].
  - rewrite (hash_update_present mx k v2 (hash_update mx k v1 m)) by eauto.
    unfold hash_update in *. destruct (m !! k) eqn:Hk.
    + apply insert_insert_eq.
    + case_decide.
      * apply insert_insert_eq.
      * rewrite Hk in Hs. discriminate.
  - by rewrite Heq.
Qed.

(** The capacity is respected. *)
Lemma hash_update_size mx k v m :
  Z.of_nat (size m) <= mx -> Z.of_nat (size (hash_update mx k v m)) <= mx.
Proof.
  intros Hm. unfold hash_update. destruct (m !! k) eqn:Hk.
  - rewrite map_size_insert_Some by eauto. done.
  - case_decide; [|done]. rewrite map_size_insert_None by done. lia.
Qed.

(** A finite map holds at most one entry per key. *)
Lemma at_most_one_entry (m : gmap Z Z) (k : Z) :
  (length (filter (fun kv => kv.1 = k) (map_to_list m)) <= 1)%nat.
Proof.
  pose proof (NoDup_fst_map_to_list m) as Hnd.
  induction (map_to_list m) as [|[k' v'] l IH]; simpl; [lia|].
  apply NoDup_cons in Hnd as [Hnotin Hnd]. specialize (IH Hnd).
  rewrite filter_cons. simpl. case_decide as Hk; [|lia]. subst k'.
  assert (filter (fun kv : Z * Z => kv.1 = k) l = []) as ->; [|simpl; lia].
  clear IH Hnd. induction l as [|[k2 v2] l IH]; [done|].
  rewrite filter_cons. simpl in *. case_decide as Hk2.
  - subst. exfalso. apply Hnotin. left.
  - apply IH. intros Hin. apply Hnotin. by right.
Qed.

End BpfFacts.

Module WaitTimer.
Import Bpf BpfFacts Waits Vocabulary.

Local Open Scope Z_scope.

Lemma create_event_fields p t end_ts d cursors :
  let e := create_event p t end_ts d cursors in
  timestamp_ns e = end_ts /\ pid e = p /\ tid e = t /\ duration_ns e = d /\
  wait_event_info e = 0 /\ cursor_id e = default 0 (cursors !! p) /\
  wait_name e = replicate 64 0.
Proof. unfold create_event. destruct (cursors !! p); simpl; auto 10. Qed.

Lemma trace_wait_end_pending pt now st start :
  wait_starts st !! u32 pt = Some start ->
  trace_wait_end pt now st =
    {| wait_starts := delete (u32 pt) (wait_starts st);
       pid_to_cursor := pid_to_cursor st;
       wait_events :=
         wait_events st ++
         if u64 (now - start) <? 1000 then []
         else [create_event (u32 (Z.shiftr pt 32)) (u32 pt) now
                 (u64 (now - start)) (pid_to_cursor st)] |}.
Proof.
  intros Hs. unfold trace_wait_end. rewrite Hs.
  destruct (u64 (now - start) <? 1000); unfold set_wait_starts; simpl.
  - by rewrite app_nil_r.
  - done.
Qed.

Lemma trace_wait_end_absent pt now st :
  wait_starts st !! u32 pt = None -> trace_wait_end pt now st = st.
Proof. intros Hs. unfold trace_wait_end. by rewrite Hs. Qed.

Section Session.
Context (max_entries : Z).

Lemma trace_wait_end_submits pt now st :
  exists l, submits st (trace_wait_end pt now st) l /\
    pid_to_cursor (trace_wait_end pt now st) = pid_to_cursor st /\
    Forall (well_formed_event (pid_to_cursor st)) l.
Proof.
  destruct (wait_starts st !! u32 pt) as [start|] eqn:Hs.
  - rewrite (trace_wait_end_pending _ _ _ _ Hs). unfold submits. simpl.
    eexists. split; [reflexivity|]. split; [done|].
    destruct (Z.ltb_spec (u64 (now - start)) 1000) as [Hlt|Hge]; [constructor|].
    constructor; [|constructor].
    destruct (create_event_fields (u32 (Z.shiftr pt 32)) (u32 pt) now
                (u64 (now - start)) (pid_to_cursor st))
      as (_ & Hp & _ & Hd & Hi & Hc & Hn).
    constructor; try done.
    + by rewrite Hc, Hp.
    + rewrite Hd. pose proof (u64_range (now - start)) as Hr.
      unfold is_u64 in Hr. lia.
  - rewrite (trace_wait_end_absent _ _ _ Hs). exists []. unfold submits.
    rewrite app_nil_r. repeat split; constructor.
Qed.

Lemma probe_submits h st :
  exists l, submits st (probe max_entries h st) l /\
    pid_to_cursor (probe max_entries h st) = pid_to_cursor st /\
    Forall (well_formed_event (pid_to_cursor st)) l.
Proof.
  destruct h as [pt info now | pt now | pt now | pt now]; simpl;
    try apply trace_wait_end_submits.
  - exists []. unfold submits. simpl. rewrite app_nil_r. repeat split; constructor.
  - exists []. unfold submits. simpl. rewrite app_nil_r. repeat split; constructor.
Qed.

(** The session invariant: the cursor table is never written, and
    every record submitted is well formed with respect to it. *)
Lemma run_submits hs st :
  exists l, submits st (run max_entries hs st) l /\
    pid_to_cursor (run max_entries hs st) = pid_to_cursor st /\
    Forall (well_formed_event (pid_to_cursor st)) l.
Proof.
  revert st. induction hs as [|h hs IH]; intros st.
  - exists []. unfold submits. simpl. rewrite app_nil_r. repeat split; constructor.
  - simpl. fold (run max_entries hs (probe max_entries h st)).
    destruct (probe_submits h st) as (l1 & Hl1 & Hc1 & Hf1).
    destruct (IH (probe max_entries h st)) as (l2 & Hl2 & Hc2 & Hf2).
    exists (l1 ++ l2). unfold submits in *. split; [|split].
    + rewrite Hl2, Hl1. by rewrite app_assoc.
    + by rewrite Hc2.
    + apply Forall_app. split; [done|]. by rewrite Hc1 in Hf2.
Qed.

(** A wait-start followed by the wait-end of the same thread, when the
    start could be recorded. *)
Lemma wait_pair pt info s e st :
  is_Some (wait_starts st !! u32 pt) \/ Z.of_nat (size (wait_starts st)) < max_entries ->
  trace_wait_end pt e (trace_wait_start max_entries pt info s st) =
    {| wait_starts := delete (u32 pt) (wait_starts st);
       pid_to_cursor := pid_to_cursor st;
       wait_events :=
         wait_events st ++
         if u64 (e - s) <? 1000 then []
         else [create_event (u32 (Z.shiftr pt 32)) (u32 pt) e
                 (u64 (e - s)) (pid_to_cursor st)] |}.
Proof.
  intros Hroom.
  assert (wait_starts (trace_wait_start max_entries pt info s st)
          = <[u32 pt := s]> (wait_starts st)) as Hw.
  { unfold trace_wait_start. simpl.
    destruct Hroom; [by apply hash_update_present | by apply hash_update_room]. }
  rewrite (trace_wait_end_pending _ _ _ s) by (rewrite Hw; apply lookup_insert_eq).
  rewrite Hw. by rewrite delete_insert_eq.
Qed.

(** The table never exceeds its capacity. *)
Lemma run_respects_capacity hs st :
  Z.of_nat (size (wait_starts st)) <= max_entries ->
  Z.of_nat (size (wait_starts (run max_entries hs st))) <= max_entries.
Proof.
  revert st. induction hs as [|h hs IH]; intros st Hst; [done|].
  simpl. fold (run max_entries hs (probe max_entries h st)). apply IH.
  assert (forall pt now,
            Z.of_nat (size (wait_starts (trace_wait_end pt now st))) <= max_entries)
    as Hend.
  { intros pt now. destruct (wait_starts st !! u32 pt) as [start|] eqn:Hs.
    - rewrite (trace_wait_end_pending _ _ _ _ Hs). simpl.
      rewrite map_size_delete_Some by eauto. lia.
    - by rewrite (trace_wait_end_absent _ _ _ Hs). }
  destruct h as [pt info now | pt now | pt now | pt now]; simpl;
    try apply Hend; by apply hash_update_size.
Qed.
End Session.

(** C3: the record submitted for a wait carries [wait_event_info = 0].
    [trace_wait_start] gives the same state whatever wait code it is
    called with, every record a session submits has the field at zero,
    zero is not a key of [WAIT_EVENT_NAMES], and so the line printed for
    each of these records names the wait [Unknown:0x00000000]. *)
Theorem wait_event_info_is_never_set (max_entries : Z)
    (hs : list probe_hit) (st : bpf_state) (timestamp : string) :
  (forall pt info info' now s,
      trace_wait_start max_entries pt info now s
      = trace_wait_start max_entries pt info' now s) /\
  WAIT_EVENT_NAMES !! 0 = None /\
  exists l, submits st (run max_entries hs st) l /\
    Forall (fun e =>
      wait_event_info e = 0 /\
      get_wait_event_name (wait_event_info e) = "Unknown:0x00000000"%string /\
      print_wait_event timestamp e =
        (if 0 <? cursor_id e then "WAIT #"%string +:+ pretty (cursor_id e)
         else "WAIT [PID "%string +:+ pretty (pid e) +:+ "]"%string)
        +:+ ": nam='Unknown:0x00000000' ela="%string
        +:+ format_0f (truediv (duration_ns e) 1000)
        +:+ " us tim="%string +:+ timestamp) l.
Proof.
  split; [done|]. split; [done|].
  destruct (run_submits max_entries hs st) as (l & Hl & _ & Hf).
  exists l. split; [done|].
  eapply Forall_impl; [exact Hf|]. intros e [Hi _ _ _].
  split; [done|]. split; [by rewrite Hi|].
  unfold print_wait_event. rewrite Hi.
  change (get_wait_event_name 0) with "Unknown:0x00000000"%string.
  destruct (0 <? cursor_id e); simpl; by rewrite ?StringFacts.append_assoc.
Qed.

(** C4: a wait-end that measures less than 1000 ns submits nothing and
    still deletes the entry of its thread; the state it leaves does not
    depend on the suppressed wait, and the next wait-start/wait-end pair
    of the thread is timed from its own start only. *)
Theorem short_wait_is_suppressed (max_entries : Z)
    (pt now start : Z) (st : bpf_state) (info s2 e2 : Z) :
  wait_starts st !! u32 pt = Some start ->
  u64 (now - start) < 1000 ->
  Z.of_nat (size (wait_starts st)) <= max_entries ->
  let st' := trace_wait_end pt now st in
  let st'' := trace_wait_end pt e2 (trace_wait_start max_entries pt info s2 st') in
  wait_events st' = wait_events st /\
  wait_starts st' = delete (u32 pt) (wait_starts st) /\
  wait_starts st' !! u32 pt = None /\
  wait_starts st'' = delete (u32 pt) (wait_starts st) /\
  submits st st''
    (if u64 (e2 - s2) <? 1000 then []
     else [create_event (u32 (Z.shiftr pt 32)) (u32 pt) e2 (u64 (e2 - s2))
             (pid_to_cursor st)]).
Proof.
  intros Hs Hshort Hcap st' st''.
  assert (st' = set_wait_starts (delete (u32 pt) (wait_starts st)) st) as Hst'.
  { subst st'. rewrite (trace_wait_end_pending _ _ _ _ Hs).
    apply Z.ltb_lt in Hshort. rewrite Hshort. unfold set_wait_starts.
    by rewrite app_nil_r. }
  assert (Z.of_nat (size (wait_starts st')) < max_entries) as Hroom.
  { rewrite Hst'. simpl. rewrite map_size_delete_Some by eauto.
    assert (size (wait_starts st) <> 0%nat); [|lia].
    apply map_size_ne_0_lookup. eauto. }
  subst st''. rewrite (wait_pair max_entries pt info s2 e2 st') by (by right).
  rewrite Hst'. unfold submits. simpl.
  rewrite lookup_delete_eq, delete_delete_eq. done.
Qed.

Lemma short_wait_is_suppressed_witness :
  let pt := pid_tgid_of 100 5 in
  let st := trace_wait_start 10240 pt 0 0 (loaded ∅) in
  wait_events (trace_wait_end pt 999 st) = [] /\
  wait_starts (trace_wait_end pt 999 st) !! 5 = None /\
  submits st
    (trace_wait_end pt 9000
       (trace_wait_start 10240 pt 0 2000 (trace_wait_end pt 999 st)))
    [create_event 100 5 9000 7000 ∅].
Proof.
  intros pt st.
  destruct (short_wait_is_suppressed 10240 pt 999 0 st 0 2000 9000)
    as (H1 & _ & H3 & _ & H5).
  - reflexivity.
  - reflexivity.
  - vm_compute. discriminate.
  - split; [exact H1|]. split; [exact H3|]. exact H5.
Defined.

(** C5: the cursor of a record comes from [pid_to_cursor], which the
    probes only read.

    - No probe writes the table, so a session leaves it as it was.
    - Every record a session submits has the cursor of its pid in the
      table, and 0 when the pid has no entry.
    - A wait-end that meets a pending start at least 1000 ns old hands
      over exactly one record: that of the process of the thread, with
      the entry of the pid as its cursor when there is one and with
      cursor 0 when there is none.
    - With a table that is empty for the whole session every record has
      cursor 0, and records are still produced: after any session, a
      wait that could be recorded and lasted at least 1000 ns adds one
      well-formed record with cursor 0. *)
Theorem cursor_id_comes_from_mapping (max_entries : Z)
    (hs : list probe_hit) (st : bpf_state) :
  (forall h s, pid_to_cursor (probe max_entries h s) = pid_to_cursor s) /\
  pid_to_cursor (run max_entries hs st) = pid_to_cursor st /\
  (exists l, submits st (run max_entries hs st) l /\
     Forall (fun e => cursor_id e = default 0 (pid_to_cursor st !! pid e)) l) /\
  Forall (fun e => cursor_id e = 0) (wait_events (run max_entries hs (loaded ∅))) /\
  (forall pt now start,
     wait_starts st !! u32 pt = Some start ->
     1000 <= u64 (now - start) ->
     exists e, submits st (trace_wait_end pt now st) [e] /\
       pid e = u32 (Z.shiftr pt 32) /\
       duration_ns e = u64 (now - start) /\
       (forall c, pid_to_cursor st !! pid e = Some c -> cursor_id e = c) /\
       (pid_to_cursor st !! pid e = None -> cursor_id e = 0)) /\
  (forall pt info s e,
     let st0 := run max_entries hs (loaded ∅) in
     is_Some (wait_starts st0 !! u32 pt)
       \/ Z.of_nat (size (wait_starts st0)) < max_entries ->
     1000 <= u64 (e - s) ->
     exists ev,
       wait_events (run max_entries
                      (hs ++ [WaitStartHit pt info s; WaitEndHit pt e]) (loaded ∅))
         = wait_events st0 ++ [ev] /\
       cursor_id ev = 0 /\ pid ev = u32 (Z.shiftr pt 32) /\
       well_formed_event ∅ ev).
Proof.
  split_and!.
  - intros h s. by destruct (probe_submits max_entries h s) as (_ & _ & Hc & _).
  - by destruct (run_submits max_entries hs st) as (_ & _ & Hc & _).
  - destruct (run_submits max_entries hs st) as (l & Hl & _ & Hf).
    exists l. split; [done|]. eapply Forall_impl; [exact Hf|].
    by intros e [_ Hc _ _].
  - destruct (run_submits max_entries hs (loaded ∅)) as (l & Hl & _ & Hf).
    unfold submits in Hl. simpl in Hl. rewrite Hl.
    eapply Forall_impl; [exact Hf|]. by intros e [_ Hc _ _].
  - intros pt now start Hs Hlong.
    rewrite (trace_wait_end_pending _ _ _ _ Hs).
    apply Z.ltb_ge in Hlong. rewrite Hlong.
    destruct (create_event_fields (u32 (Z.shiftr pt 32)) (u32 pt) now
                (u64 (now - start)) (pid_to_cursor st))
      as (_ & Hp & _ & Hd & _ & Hc & _).
    eexists. split; [reflexivity|]. split; [exact Hp|]. split; [exact Hd|].
    rewrite Hp, Hc. split.
    + intros c Hin. by rewrite Hin.
    + intros Hout. by rewrite Hout.
  - intros pt info s e st0 Hroom Hlong.
    assert (pid_to_cursor st0 = ∅) as Hcur.
    { by destruct (run_submits max_entries hs (loaded ∅)) as (_ & _ & Hc & _). }
    unfold run. rewrite foldl_app. fold (run max_entries hs (loaded ∅)).
    fold st0. cbn [foldl probe].
    rewrite (wait_pair max_entries pt info s e st0 Hroom).
    apply Z.ltb_ge in Hlong. rewrite Hlong. cbn [wait_events].
    rewrite Hcur.
    destruct (create_event_fields (u32 (Z.shiftr pt 32)) (u32 pt) e
                (u64 (e - s)) ∅)
      as (_ & Hp & _ & Hd & Hi & Hc & Hn).
    eexists. split; [reflexivity|].
    rewrite lookup_empty in Hc. 
    split; [exact Hc|]. split; [exact Hp|].
    constructor.
    + exact Hi.
    + rewrite Hc. by rewrite lookup_empty.
    + rewrite Hd. apply Z.ltb_ge in Hlong.
      pose proof (u64_range (e - s)) as Hr. unfold is_u64 in Hr. lia.
    + exact Hn.
Qed.

(** A session of one wait of 5000 ns, without and with an entry for
    pid 100. *)
Lemma cursor_id_comes_from_mapping_witness :
  (exists ev,
     wait_events (run 10240 [WaitStartHit (pid_tgid_of 100 5) 0x05000001 0;
                              WaitEndHit (pid_tgid_of 100 5) 5000] (loaded ∅))
       = [ev] /\ cursor_id ev = 0 /\ pid ev = 100) /\
  (exists ev,
     let st := trace_wait_start 10240 (pid_tgid_of 100 5) 0x05000001 0
                 (loaded {[ 100 := 42 ]}) in
     submits st (trace_wait_end (pid_tgid_of 100 5) 5000 st) [ev] /\
     pid ev = 100 /\ cursor_id ev = 42).
Proof.
  split.
  - destruct (cursor_id_comes_from_mapping 10240 [] (loaded ∅))
      as (_ & _ & _ & _ & _ & Hempty).
    destruct (Hempty (pid_tgid_of 100 5) 0x05000001 0 5000)
      as (ev & Hev & Hc & Hp & _).
    + right. vm_compute. reflexivity.
    + vm_compute. discriminate.
    + exists ev. split; [exact Hev|]. split; [exact Hc|]. exact Hp.
  - destruct (cursor_id_comes_from_mapping 10240 []
                (trace_wait_start 10240 (pid_tgid_of 100 5) 0x05000001 0
                   (loaded {[ 100 := 42 ]})))
      as (_ & _ & _ & _ & Hone & _).
    destruct (Hone (pid_tgid_of 100 5) 5000 0) as (ev & Hev & Hp & _ & Hin & _).
    + reflexivity.
    + vm_compute. discriminate.
    + exists ev. split; [exact Hev|]. split; [exact Hp|].
      apply Hin. rewrite Hp. reflexivity.
Defined.

(** With an empty table a wait of 5000 ns is still reported, cursor 0. *)
Example empty_mapping_still_reports :
  wait_events (run 10240 [WaitStartHit (pid_tgid_of 100 5) 0x05000001 0;
                           WaitEndHit (pid_tgid_of 100 5) 5000] (loaded ∅))
  = [ {| timestamp_ns := 5000; pid := 100; tid := 5; cursor_id := 0;
         wait_event_info := 0; duration_ns := 5000;
         wait_name := replicate 64 0 |} ].
Proof. reflexivity. Qed.

(** The scenario of the design: cursor 42 published for pid 100. *)
Example scenario_cursor_42 :
  map (print_wait_event "2024-01-01 00:00:00.000")
    (wait_events (run 10240 [WaitStartHit (pid_tgid_of 100 5) 0x05000001 0;
                             WaitEndHit (pid_tgid_of 100 5) 5000]
                    (loaded {[ 100 := 42 ]})))
  = [ "WAIT #42: nam='Unknown:0x00000000' ela=5 us tim=2024-01-01 00:00:00.000"%string ].
Proof. reflexivity. Qed.

(** C7: a thread has at most one pending wait. A second wait-start
    before any wait-end leaves the state that the second start alone
    would give, so nothing of the first remains; whatever the wait-end
    that follows submits is measured from the second start. When the
    first start has been recorded (the table had room for the thread),
    the second replaces its time and the wait-end reports the wait from
    the second start whenever it reaches the threshold. *)
Theorem second_wait_start_overwrites (max_entries : Z)
    (pt i1 i2 t1 t2 t3 : Z) (st : bpf_state) :
  let st1 := trace_wait_start max_entries pt i1 t1 st in
  let st2 := trace_wait_start max_entries pt i2 t2 st1 in
  st2 = trace_wait_start max_entries pt i2 t2 st /\
  (length (filter (fun kv => kv.1 = u32 pt) (map_to_list (wait_starts st2))) <= 1)%nat /\
  (exists l, submits st (trace_wait_end pt t3 st2) l /\
     Forall (fun e => duration_ns e = u64 (t3 - t2) /\ timestamp_ns e = t3) l) /\
  (is_Some (wait_starts st1 !! u32 pt) ->
   wait_starts st1 !! u32 pt = Some t1 /\
   wait_starts st2 !! u32 pt = Some t2 /\
   wait_starts (trace_wait_end pt t3 st2) !! u32 pt = None /\
   submits st (trace_wait_end pt t3 st2)
     (if u64 (t3 - t2) <? 1000 then []
      else [create_event (u32 (Z.shiftr pt 32)) (u32 pt) t3 (u64 (t3 - t2))
              (pid_to_cursor st)])).
Proof.
  intros st1 st2.
  assert (st2 = trace_wait_start max_entries pt i2 t2 st) as Hone.
  { subst st2 st1. unfold trace_wait_start, set_wait_starts. simpl.
    by rewrite hash_update_twice. }
  assert (forall start, wait_starts st2 !! u32 pt = Some start ->
            start = t2 /\
            wait_starts (trace_wait_end pt t3 st2) !! u32 pt = None /\
            submits st (trace_wait_end pt t3 st2)
              (if u64 (t3 - t2) <? 1000 then []
               else [create_event (u32 (Z.shiftr pt 32)) (u32 pt) t3
                       (u64 (t3 - t2)) (pid_to_cursor st)])) as Hend.
  { intros start Hstart.
    assert (start = t2) as ->.
    { rewrite Hone in Hstart. unfold trace_wait_start in Hstart. simpl in Hstart.
      destruct (hash_update_lookup max_entries (u32 pt) t2 (wait_starts st))
        as [Hs | (Heq & Hnone & _)]; [congruence|].
      rewrite Heq, Hnone in Hstart. discriminate. }
    split; [done|].
    rewrite (trace_wait_end_pending pt t3 st2 t2 Hstart).
    unfold submits. cbn [wait_starts wait_events].
    rewrite lookup_delete_eq. split; [done|].
    by rewrite Hone. }
  split; [exact Hone|]. split; [apply at_most_one_entry|]. split.
  - destruct (wait_starts st2 !! u32 pt) as [start|] eqn:Hstart.
    + destruct (Hend start eq_refl) as (_ & _ & Hsub).
      eexists. split; [exact Hsub|].
      destruct (u64 (t3 - t2) <? 1000); [constructor|].
      constructor; [|constructor].
      destruct (create_event_fields (u32 (Z.shiftr pt 32)) (u32 pt) t3
                  (u64 (t3 - t2)) (pid_to_cursor st)) as (Hts & _ & _ & Hd & _).
      done.
    + exists []. rewrite (trace_wait_end_absent _ _ _ Hstart).
      split; [|constructor]. unfold submits. rewrite app_nil_r.
      by rewrite Hone.
  - intros Hrec.
    assert (wait_starts st1 !! u32 pt = Some t1) as H1.
    { subst st1. unfold trace_wait_start in *. simpl in *.
      destruct (hash_update_lookup max_entries (u32 pt) t1 (wait_starts st))
        as [Hs | (Heq & Hnone & _)]; [done|].
      rewrite Heq, Hnone in Hrec. by destruct Hrec. }
    assert (wait_starts st2 !! u32 pt = Some t2) as H2.
    { subst st2. unfold trace_wait_start at 1. simpl.
      rewrite hash_update_present by done. apply lookup_insert_eq. }
    destruct (Hend t2 H2) as (_ & Hgone & Hsub). done.
Qed.

Lemma second_wait_start_overwrites_witness :
  let pt := pid_tgid_of 100 5 in
  let st2 := trace_wait_start 10240 pt 0 3000 (trace_wait_start 10240 pt 0 0 (loaded ∅)) in
  wait_starts st2 !! 5 = Some 3000 /\
  submits (loaded ∅) (trace_wait_end pt 5000 st2) [create_event 100 5 5000 2000 ∅].
Proof.
  intros pt st2.
  destruct (second_wait_start_overwrites 10240 pt 0 0 0 3000 5000 (loaded ∅))
    as (_ & _ & _ & Hrec).
  destruct Hrec as (_ & H2 & _ & H4); [vm_compute; eauto|].
  split; [exact H2 | exact H4].
Defined.

(** C8: a wait-end of a thread that has no pending wait returns with the
    state as it was: nothing is submitted and [wait_starts] is
    unchanged. *)
Theorem wait_end_without_pending_wait (pt now : Z) (st : bpf_state) :
  wait_starts st !! u32 pt = None ->
  trace_wait_end pt now st = st /\
  submits st (trace_wait_end pt now st) [] /\
  wait_starts (trace_wait_end pt now st) = wait_starts st.
Proof.
  intros Hs. rewrite (trace_wait_end_absent _ _ _ Hs).
  unfold submits. by rewrite app_nil_r.
Qed.

Lemma wait_end_without_pending_wait_witness :
  trace_wait_end (pid_tgid_of 100 5) 5000 (loaded {[ 100 := 42 ]})
  = loaded {[ 100 := 42 ]}.
Proof.
  apply (wait_end_without_pending_wait (pid_tgid_of 100 5) 5000 (loaded {[ 100 := 42 ]})).
  reflexivity.
Defined.

(** Every record of a session measures at least 1000 ns. *)
Lemma submitted_duration_at_least_threshold (max_entries : Z)
    (hs : list probe_hit) (st : bpf_state) :
  exists l, submits st (run max_entries hs st) l /\
    Forall (fun e => 1000 <= duration_ns e < 2 ^ 64) l.
Proof.
  destruct (run_submits max_entries hs st) as (l & Hl & _ & Hf).
  exists l. split; [done|]. eapply Forall_impl; [exact Hf|].
  by intros e [_ _ Hd _].
Qed.

(** C9: a wait of exactly 1000 ns is submitted, although the comment at
    the test reads "Only report waits > 1 microsecond": the test is
    [duration_ns < 1000], so the record has a duration that is not above
    the threshold. *)
Theorem wait_of_exactly_1000ns_is_submitted :
  let pt := pid_tgid_of 100 5 in
  let st := trace_wait_end pt 1000 (trace_wait_start 10240 pt 0 0 (loaded ∅)) in
  exists e, wait_events st = [e] /\ duration_ns e = 1000 /\ ~ (1000 < duration_ns e).
Proof.
  eexists. split; [reflexivity|]. split; [reflexivity|].
  vm_compute. discriminate.
Qed.

End WaitTimer.

(** ** The formatter *)

Module FormatFacts.
Import Bpf Waits StringFacts Vocabulary.

Local Open Scope Z_scope.

Lemma fixed_hex_length n z : String.length (fixed_hex n z) = n.
Proof.
  revert z. induction n as [|n IH]; intros z; [done|].
  simpl. rewrite length_append, IH. simpl. lia.
Qed.

Lemma hex_digit_value_hex_digit d :
  0 <= d < 16 -> hex_digit_value (hex_digit d) = d.
Proof.
  intros Hd.
  assert (d = 0 \/ d = 1 \/ d = 2 \/ d = 3 \/ d = 4 \/ d = 5 \/ d = 6 \/ d = 7 \/
          d = 8 \/ d = 9 \/ d = 10 \/ d = 11 \/ d = 12 \/ d = 13 \/ d = 14 \/ d = 15)
    as Hcases by lia.
  repeat (destruct Hcases as [-> | Hcases]; [reflexivity|]). by subst.
Qed.

Lemma hex_value_from_app acc a b :
  hex_value_from acc (a +:+ b) = hex_value_from (hex_value_from acc a) b.
Proof.
  revert acc. induction a as [|c a IH]; intros acc; [done|].
  rewrite append_cons. simpl. apply IH.
Qed.

(** Reading the digits back gives the number. *)
Lemma fixed_hex_value n z :
  0 <= z < 16 ^ Z.of_nat n -> hex_value (fixed_hex n z) = z.
Proof.
  unfold hex_value. revert z. induction n as [|n IH]; intros z Hz.
  - simpl in *. lia.
  - simpl fixed_hex. rewrite hex_value_from_app. simpl.
    rewrite Nat2Z.inj_succ, Z.pow_succ_r in Hz by lia.
    rewrite IH by (split; [apply Z.div_pos; lia | apply Z.div_lt_upper_bound; lia]).
    rewrite hex_digit_value_hex_digit by (apply Z.mod_pos_bound; lia).
    pose proof (Z.div_mod z 16). lia.
Qed.

(** A leading digit of a number that fits in fewer digits is [0]. *)
Lemma fixed_hex_leading_zero n z :
  0 <= z < 16 ^ Z.of_nat n -> fixed_hex (S n) z = String "0" (fixed_hex n z).
Proof.
  revert z. induction n as [|n IH]; intros z Hz.
  - simpl in Hz. assert (z = 0) as -> by lia. reflexivity.
  - change (fixed_hex (S (S n)) z)
      with (fixed_hex (S n) (z / 16) +:+ String (hex_digit (z mod 16)) "").
    rewrite Nat2Z.inj_succ, Z.pow_succ_r in Hz by lia.
    rewrite IH by (split; [apply Z.div_pos; lia | apply Z.div_lt_upper_bound; lia]).
    reflexivity.
Qed.

Lemma zeros_fixed_hex k n z :
  0 <= z < 16 ^ Z.of_nat n -> zeros k +:+ fixed_hex n z = fixed_hex (k + n) z.
Proof.
  intros Hz. induction k as [|k IH]; [done|].
  simpl zeros. rewrite append_cons, IH.
  change (S k + n)%nat with (S (k + n)). symmetry.
  apply fixed_hex_leading_zero. split; [lia|].
  eapply Z.lt_le_trans; [apply Hz|]. apply Z.pow_le_mono_r; lia.
Qed.

(** [hex_go] writes the digits of [z] in front of [acc], without leading
    zeros, when the fuel covers them. *)
Lemma hex_go_digits fuel z acc :
  0 <= z < 16 ^ Z.of_nat (S fuel) ->
  exists n, (1 <= n)%nat /\ z < 16 ^ Z.of_nat n /\
    (n = 1%nat \/ 16 ^ Z.of_nat (n - 1) <= z) /\
    hex_go fuel z acc = fixed_hex n z +:+ acc.
Proof.
  revert z acc. induction fuel as [|fuel IH]; intros z acc Hz.
  - exists 1%nat. repeat split; [lia | lia | by left].
  - simpl hex_go. destruct (Z.eqb_spec (z / 16) 0) as [H0|Hn0].
    + exists 1%nat. repeat split; [lia | | by left].
      pose proof (Z.div_mod z 16). pose proof (Z.mod_pos_bound z 16). lia.
    + rewrite Nat2Z.inj_succ, Z.pow_succ_r in Hz by lia.
      destruct (IH (z / 16) (String (hex_digit (z mod 16)) acc))
        as (n & Hn1 & Hlt & Hmin & Heq).
      { split; [apply Z.div_pos; lia | apply Z.div_lt_upper_bound; lia]. }
      exists (S n). split; [lia|]. split; [|split].
      * rewrite Nat2Z.inj_succ, Z.pow_succ_r by lia.
        pose proof (Z.div_mod z 16). pose proof (Z.mod_pos_bound z 16). lia.
      * right. replace (S n - 1)%nat with (S (n - 1)) by lia.
        rewrite Nat2Z.inj_succ, Z.pow_succ_r by lia.
        pose proof (Z.div_mod z 16). pose proof (Z.mod_pos_bound z 16).
        assert (0 <= z / 16) by (apply Z.div_pos; lia).
        destruct Hmin as [-> | Hmin]; [simpl; lia | lia].
      * rewrite Heq. simpl fixed_hex. by rewrite append_assoc.
Qed.

(** [f'{z:08x}'] of a 32-bit value is its eight low digits. *)
Lemma format_08x_u32 z : is_u32 z -> format_08x z = fixed_hex 8 z.
Proof.
  intros [Hz0 Hz]. unfold format_08x.
  destruct (Z.ltb_spec z 0); [lia|]. unfold hex, zero_pad.
  destruct (hex_go_digits (Z.to_nat (Z.log2 z)) z "") as (n & Hn1 & Hlt & Hmin & Heq).
  { split; [done|]. rewrite Nat2Z.inj_succ, Z2Nat.id by apply Z.log2_nonneg.
    destruct (Z.eq_dec z 0) as [->|]; [reflexivity|].
    eapply Z.lt_le_trans; [apply Z.log2_spec; lia|].
    apply Z.pow_le_mono; [lia | lia]. }
  rewrite Heq, append_nil_r, fixed_hex_length.
  assert (n <= 8)%nat as Hn8.
  { destruct Hmin as [-> | Hmin]; [lia|].
    destruct (le_lt_dec n 8); [done|]. exfalso.
    assert (16 ^ 8 <= 16 ^ Z.of_nat (n - 1)) by (apply Z.pow_le_mono_r; lia).
    change (2 ^ 32) with (16 ^ 8) in Hz. lia. }
  rewrite zeros_fixed_hex by lia. f_equal. lia.
Qed.

(** *** Rounding of the elapsed time *)

Lemma rne_div_cases a b q r :
  0 < b -> a = b * q + r -> 0 <= r < b ->
  rne_div a b =
    if 2 * r <? b then q
    else if b <? 2 * r then q + 1
    else if Z.even q then q else q + 1.
Proof.
  intros Hb Ha Hr. unfold rne_div.
  assert (a / b = q) as -> by (symmetry; apply (Z.div_unique a b q r); lia).
  assert (a mod b = r) as -> by (symmetry; apply (Z.mod_unique a b q r); lia).
  done.
Qed.

Lemma rne_div_bounds a b :
  0 < b -> 2 * a - b <= 2 * b * rne_div a b <= 2 * a + b.
Proof.
  intros Hb. pose proof (Z.div_mod a b) as Hdm.
  pose proof (Z.mod_pos_bound a b Hb) as Hr.
  rewrite (rne_div_cases a b (a / b) (a mod b)) by lia.
  destruct (Z.ltb_spec (2 * (a mod b)) b); [nia|].
  destruct (Z.ltb_spec b (2 * (a mod b))); [nia|].
  destruct (Z.even (a / b)); nia.
Qed.

(** Rounding [d / 1000] to a multiple of [1 / P] first, for an even
    [P > 500], does not change the nearest integer. *)
Lemma rne_div_twice d P :
  0 <= d -> 500 < P -> Z.even P = true ->
  rne_div (rne_div (d * P) 1000) P = rne_div d 1000.
Proof.
  intros Hd HP Heven.
  pose proof (Z.div_mod d 1000) as Hdm.
  pose proof (Z.mod_pos_bound d 1000) as Hr.
  set (q := d / 1000) in *. set (r := d mod 1000) in *.
  rewrite (rne_div_cases d 1000 q r) by lia.
  pose proof (rne_div_bounds (d * P) 1000) as Hm.
  set (m := rne_div (d * P) 1000) in *.
  destruct (Z.ltb_spec (2 * r) 1000) as [Hlt|Hge].
  - (* below the half *)
    rewrite (rne_div_cases m P q (m - P * q)) by nia.
    destruct (Z.ltb_spec (2 * (m - P * q)) P); [done | nia].
  - destruct (Z.ltb_spec 1000 (2 * r)) as [Hgt|Hle].
    + (* above the half *)
      destruct (Z.eq_dec (m - P * q) P) as [Heq|Hne].
      * rewrite (rne_div_cases m P (q + 1) 0) by nia.
        destruct (Z.ltb_spec (2 * 0) P); [done | lia].
      * rewrite (rne_div_cases m P q (m - P * q)) by nia.
        destruct (Z.ltb_spec (2 * (m - P * q)) P); [nia|].
        destruct (Z.ltb_spec P (2 * (m - P * q))); [done | nia].
    + (* the tie *)
      assert (r = 500) as Hr500 by lia.
      apply Z.even_spec in Heven as [h Hh].
      assert (m = P * q + h) as Hmeq.
      { subst m. rewrite (rne_div_cases (d * P) 1000 (P * q + h) 0) by nia.
        reflexivity. }
      rewrite (rne_div_cases m P q h) by nia.
      destruct (Z.ltb_spec (2 * h) P); [lia|].
      destruct (Z.ltb_spec P (2 * h)); [lia | done].
Qed.

(** Below 1000 * 2^44 ns (some 200 days) the double quotient is precise
    enough: the elapsed time printed is [duration_ns / 1000] rounded to
    the nearest integer, ties to even. *)
Lemma format_0f_truediv_1000 d :
  0 <= d < 1000 * 2 ^ 44 ->
  format_0f (truediv d 1000) = pretty (rne_div d 1000).
Proof.
  intros [Hd0 Hd]. unfold truediv.
  destruct (Z.eqb_spec d 0) as [->|Hne]; [reflexivity|].
  change (Z.log2 1000) with 9.
  assert (Z.log2 d < 54) as Hlog by (apply Z.log2_lt_pow2; lia).
  set (e0 := Z.log2 d - 9 - 52).
  assert (exists k, 9 <= k /\
            (if fst (if 0 <=? e0 then (d, 1000 * 2 ^ e0) else (d * 2 ^ (- e0), 1000))
                <? 2 ^ 52 * snd (if 0 <=? e0 then (d, 1000 * 2 ^ e0)
                                 else (d * 2 ^ (- e0), 1000))
             then e0 - 1 else e0) = - k) as (k & Hk & ->).
  { destruct (Z.leb_spec 0 e0); [lia|]. simpl fst. simpl snd.
    destruct (Z.ltb_spec (d * 2 ^ (- e0)) (2 ^ 52 * 1000)) as [Hlt|Hge].
    - exists (- e0 + 1). split; lia.
    - exists (- e0). split; [|lia].
      destruct (Z.eq_dec e0 (-8)) as [He|]; [|lia].
      rewrite He in Hge. change (2 ^ (- -8)) with 256 in Hge. lia. }
  destruct (Z.leb_spec 0 (- k)); [lia|]. simpl fst. simpl snd.
  unfold format_0f. destruct (Z.leb_spec 0 (- k)); [lia|].
  rewrite Z.opp_involutive. f_equal. apply rne_div_twice.
  - done.
  - assert (2 ^ 9 <= 2 ^ k) by (apply Z.pow_le_mono_r; lia). lia.
  - replace k with (Z.succ (k - 1)) by lia.
    rewrite Z.pow_succ_r by lia. apply Z.even_mul.
Qed.

End FormatFacts.

Module FormatClaims.
Import Bpf Waits StringFacts FormatFacts Vocabulary.

Local Open Scope Z_scope.

(** C6: the line printed for a record. It opens with [WAIT #<cursor_id>]
    when [cursor_id > 0] and with [WAIT [PID <pid>]] otherwise; the name
    is the entry of [WAIT_EVENT_NAMES] for the code, and for a code
    without entry [Unknown:0x] followed by the eight hexadecimal digits of
    the code, zero-padded; the elapsed time is [duration_ns / 1000]
    printed without decimals, which below 1000 * 2^44 ns is the quotient
    rounded to the nearest integer, ties to even. *)
Theorem wait_line_format (timestamp : string) (e : wait_event_t) :
  is_u32 (wait_event_info e) ->
  print_wait_event timestamp e =
    (if 0 <? cursor_id e then "WAIT #"%string +:+ pretty (cursor_id e)
     else "WAIT [PID "%string +:+ pretty (pid e) +:+ "]"%string)
    +:+ ": nam='"%string +:+ rendered_name (wait_event_info e)
    +:+ "' ela="%string +:+ format_0f (truediv (duration_ns e) 1000)
    +:+ " us tim="%string +:+ timestamp
  /\ String.length (fixed_hex 8 (wait_event_info e)) = 8%nat
  /\ hex_value (fixed_hex 8 (wait_event_info e)) = wait_event_info e
  /\ (0 <= duration_ns e < 1000 * 2 ^ 44 ->
      format_0f (truediv (duration_ns e) 1000)
      = pretty (rne_div (duration_ns e) 1000)).
Proof.
  intros Hcode. split; [|split; [|split]].
  - unfold print_wait_event, get_wait_event_name, rendered_name.
    rewrite (format_08x_u32 _ Hcode).
    destruct (WAIT_EVENT_NAMES !! wait_event_info e); simpl;
      destruct (0 <? cursor_id e); by rewrite ?append_assoc.
  - apply fixed_hex_length.
  - apply fixed_hex_value. exact Hcode.
  - apply format_0f_truediv_1000.
Qed.

Lemma wait_line_format_witness :
  let e := {| timestamp_ns := 777; pid := 100; tid := 5; cursor_id := 42;
              wait_event_info := 0x07000001; duration_ns := 2500;
              wait_name := replicate 64 0 |} in
  is_u32 (wait_event_info e) /\
  print_wait_event "2024-01-01 00:00:00.000" e
  = "WAIT #42: nam='Unknown:0x07000001' ela=2 us tim=2024-01-01 00:00:00.000"%string /\
  format_0f (truediv (duration_ns e) 1000) = "2"%string.
Proof.
  intros e.
  assert (is_u32 (wait_event_info e)) as Hcode by (unfold is_u32; simpl; lia).
  split; [exact Hcode|].
  destruct (wait_line_format "2024-01-01 00:00:00.000" e Hcode)
    as (Hline & _ & _ & Hela).
  split.
  - rewrite Hline. reflexivity.
  - rewrite Hela by (simpl; lia). reflexivity.
Defined.

(** The two shapes of the line, on a known code and without cursor. *)
Example line_without_cursor :
  print_wait_event "2024-01-01 00:00:00.000"
    {| timestamp_ns := 777; pid := 100; tid := 5; cursor_id := 0;
       wait_event_info := 0x05000006; duration_ns := 1500;
       wait_name := replicate 64 0 |}
  = "WAIT [PID 100]: nam='WALWrite' ela=2 us tim=2024-01-01 00:00:00.000"%string.
Proof. reflexivity. Qed.

End FormatClaims.

(** ** The merge *)

Module MergeFacts.
Import Orchestrate StringFacts Vocabulary.

Local Open Scope Z_scope.

(** The header that the code writes is that block after a line end. *)
Lemma wait_header_delimiter : wait_header = nl +:+ spec_delimiter_block.
Proof. reflexivity. Qed.

Lemma universal_newlines_without_cr s :
  has_cr s = false -> universal_newlines s = s.
Proof.
  induction s as [|c s IH]; [done|]. simpl.
  destruct (Ascii.eqb c CR); [done|]. simpl. intros H. by rewrite IH.
Qed.

(** The file that [merge_traces] leaves at [output_file], from the file
    system as it is once the output has been truncated. *)
Lemma merge_traces_output ext wait out w :
  let fs0 := <[out := ""%string]> (files w) in
  files (merge_traces ext wait out w) !! out =
    Some (match fs0 !! ext with
          | Some ef => universal_newlines ef
          | None => ""%string
          end
          +:+ match fs0 !! wait with
              | Some wf => wait_header +:+ universal_newlines wf
              | None => ""%string
              end).
Proof.
  unfold merge_traces. simpl. rewrite lookup_insert_eq. f_equal.
  destruct (<[out:=""%string]> (files w) !! ext);
    destruct (<[out:=""%string]> (files w) !! wait);
    rewrite ?append_nil_r; done.
Qed.

Lemma merge_traces_other ext wait out w p :
  p <> out -> files (merge_traces ext wait out w) !! p = files w !! p.
Proof.
  intros Hp. unfold merge_traces. simpl. by rewrite !lookup_insert_ne.
Qed.

Lemma merge_traces_log ext wait out w :
  log (merge_traces ext wait out w) =
    log w ++ [Stdout ("Merging traces into: " +:+ out +:+ nl);
              Stdout ("Trace complete: " +:+ out +:+ nl)].
Proof.
  unfold merge_traces, print, emit. simpl.
  by rewrite <- app_assoc, !append_assoc.
Qed.

End MergeFacts.

(** ** The merge on a file system *)

Module DiskFacts.
Import Orchestrate Disk StringFacts Vocabulary DiskVocabulary MergeFacts.

Local Open Scope string_scope.
Local Open Scope list_scope.

Lemma open_write_writable h d out o :
  writable h d out o ->
  open_write h out d = inr (o, set_nodes (<[o := File ""]> (nodes d)) d).
Proof.
  intros (Hl & Hd & Hw). unfold open_write. rewrite Hl.
  rewrite (bool_decide_eq_false_2 _ Hw).
  by destruct Hd as [-> | [c ->]].
Qed.

Lemma exists_text_file h d p i c :
  text_file h d p i c -> os_path_exists h d p = true.
Proof.
  intros (Hl & Hn & _). unfold os_path_exists. rewrite Hl, Hn.
  by apply bool_decide_eq_true_2.
Qed.

Lemma read_text_file h d p i c :
  text_file h d p i c -> read_file h d p = inr (universal_newlines c).
Proof.
  intros (Hl & Hn & Hr & Hd). unfold read_file. rewrite Hl, Hn.
  rewrite (bool_decide_eq_false_2 _ Hr).
  destruct Hd as [-> | ->]; [done|]. by rewrite orb_true_r.
Qed.

(** A path that does not lead to [o] sees no change made at [o]. *)
Lemma os_path_exists_other h d d' p o n :
  nodes d' = <[o := n]> (nodes d) -> locate h p <> Some o ->
  os_path_exists h d' p = os_path_exists h d p.
Proof.
  intros Hn Hp. unfold os_path_exists. destruct (locate h p) as [i|]; [|done].
  rewrite Hn, lookup_insert_ne; [done|]. congruence.
Qed.

Lemma read_file_other h d d' p o n :
  nodes d' = <[o := n]> (nodes d) -> locate h p <> Some o ->
  read_file h d' p = read_file h d p.
Proof.
  intros Hn Hp. unfold read_file. destruct (locate h p) as [i|]; [|done].
  rewrite Hn, lookup_insert_ne; [done|]. congruence.
Qed.

Lemma nodes_close_open o x d t :
  nodes (close o x (set_nodes (<[o := File ""]> (nodes d)) (print t d)))
  = <[o := File x]> (nodes d).
Proof. unfold close, set_nodes, print. cbn [nodes]. apply insert_insert_eq. Qed.

Lemma shown_close_open o x d t u :
  shown (print u (close o x (set_nodes (<[o := File ""]> (nodes d)) (print t d))))
  = shown d ++ [Stdout (t +:+ nl); Stdout (u +:+ nl)].
Proof. unfold close, set_nodes, print. cbn [shown]. by rewrite <- app_assoc. Qed.

(** The merge when neither input is the output file under another
    name: the inputs are read as they were before the call. *)
Lemma merge_traces_apart h ext wait out d o :
  writable h d out o ->
  locate h ext <> Some o -> locate h wait <> Some o ->
  let d0 := set_nodes (<[o := File ""]> (nodes d))
              (print ("Merging traces into: " +:+ out) d) in
  merge_traces h ext wait out d =
    match (if os_path_exists h d ext then read_file h d ext else inr "") with
    | inl e => Raised e (close o "" d0)
    | inr sql =>
        if os_path_exists h d wait then
          match read_file h d wait with
          | inl e => Raised e (close o (sql +:+ wait_header) d0)
          | inr waits =>
              Returned (print ("Trace complete: " +:+ out)
                          (close o ((sql +:+ wait_header) +:+ waits) d0))
          end
        else Returned (print ("Trace complete: " +:+ out) (close o sql d0))
    end.
Proof.
  intros Hw Hext Hwait d0. unfold merge_traces.
  rewrite (open_write_writable h _ out o) by exact Hw.
  cbn [nodes print]. fold (print ("Merging traces into: " +:+ out) d). fold d0.
  assert (nodes d0 = <[o := File ""]> (nodes d)) as Hd0 by done.
  rewrite (os_path_exists_other h d d0 ext o _ Hd0 Hext).
  rewrite (read_file_other h d d0 ext o _ Hd0 Hext).
  rewrite (os_path_exists_other h d d0 wait o _ Hd0 Hwait).
  destruct (if os_path_exists h d ext then read_file h d ext else inr "")
    as [e|sql]; [done|].
  destruct (os_path_exists h d wait); [|done].
  rewrite (read_file_other h d _ wait o
             (File (substring 0 (flush_point h (sql +:+ wait_header))
                      (sql +:+ wait_header)))); [done| |done].
  unfold close, set_nodes, d0, print. cbn [nodes]. apply insert_insert_eq.
Qed.

Lemma text_file_not_at h d p i c o : text_file h d p i c -> o <> i -> locate h p <> Some o.
Proof. intros (Hl & _) Hne. rewrite Hl. congruence. Qed.

(** The two models of the merge agree where the session uses it: when
    each input is a text file on both sides or missing on both sides,
    and the output is a writable place of its own under a path of its
    own, the merge on the disk returns and leaves at the output what
    the merge over text files leaves under the output path. *)
Lemma session_merge_agrees h d (w : world) ext wait out o :
  writable h d out o ->
  out <> ext -> out <> wait ->
  (forall p, p = ext \/ p = wait ->
     (exists i c, text_file h d p i c /\ o <> i /\ files w !! p = Some c)
     \/ (missing h d p o /\ files w !! p = None)) ->
  exists d',
    merge_traces h ext wait out d = Returned d' /\
    content_at h d' out = files (Orchestrate.merge_traces ext wait out w) !! out.
Proof.
  intros Hw Hne1 Hne2 Hin.
  assert (forall p, p = ext \/ p = wait -> locate h p <> Some o) as Hloc.
  { intros p Hp. destruct (Hin p Hp) as [(i & c & Hc & Hi & _) | [[_ Hm] _]];
      [by eapply text_file_not_at | done]. }
  rewrite (merge_traces_apart h ext wait out d o Hw
             (Hloc ext (or_introl eq_refl)) (Hloc wait (or_intror eq_refl))).
  rewrite merge_traces_output. cbn zeta. rewrite !lookup_insert_ne by done.
  assert (forall x y t, content_at h (print t (close o x y)) out = Some x) as Hat.
  { intros x y t. unfold content_at. destruct Hw as (Hl & _). rewrite Hl.
    unfold close, print, set_nodes. cbn [nodes]. by rewrite lookup_insert_eq. }
  destruct (Hin ext (or_introl eq_refl))
    as [(i & a & Ha & _ & ->) | [[Ha _] ->]];
    destruct (Hin wait (or_intror eq_refl))
      as [(j & b & Hb & _ & ->) | [[Hb _] ->]];
    rewrite ?(exists_text_file _ _ _ _ _ Ha), ?(read_text_file _ _ _ _ _ Ha),
      ?(exists_text_file _ _ _ _ _ Hb), ?(read_text_file _ _ _ _ _ Hb), ?Ha, ?Hb;
    (eexists; split; [reflexivity|]); rewrite Hat;
    by rewrite ?append_nil_r, ?append_assoc.
Qed.

End DiskFacts.

Module MergeClaims.
Import Orchestrate Disk StringFacts Vocabulary DiskVocabulary MergeFacts DiskFacts.

Local Open Scope string_scope.
Local Open Scope list_scope.

(** C1, as the code has it. Both inputs are regular files that the
    process may read and whose bytes decode; the output path leads to a
    place where a file can be written, and that place is neither input,
    under whatever name. Then the call returns, and the output file
    holds the text of the SQL trace, one line end, the delimiter block
    and the text of the wait log, where the text of a file is its
    content with each "\r\n" and each lone "\r" read as "\n"; for
    contents without carriage return these are the contents themselves,
    byte for byte. No other file changes, and the two progress lines are
    printed. *)
Theorem merge_of_two_text_files (h : host) (d : disk) (ext wait out : string)
    (i j o : N) (a b : string) :
  text_file h d ext i a ->
  text_file h d wait j b ->
  writable h d out o ->
  o <> i -> o <> j ->
  exists d',
    merge_traces h ext wait out d = Returned d' /\
    nodes d' = <[o := File (universal_newlines a +:+ nl +:+ spec_delimiter_block
                              +:+ universal_newlines b)]> (nodes d) /\
    (has_cr a = false -> has_cr b = false ->
     content_at h d' out = Some (a +:+ nl +:+ spec_delimiter_block +:+ b)) /\
    shown d' = shown d ++ merge_lines out.
Proof.
  intros Ha Hb Hw Hi Hj.
  rewrite (merge_traces_apart h ext wait out d o Hw
             (text_file_not_at _ _ _ _ _ _ Ha Hi) (text_file_not_at _ _ _ _ _ _ Hb Hj)).
  rewrite (exists_text_file _ _ _ _ _ Ha), (read_text_file _ _ _ _ _ Ha).
  rewrite (exists_text_file _ _ _ _ _ Hb), (read_text_file _ _ _ _ _ Hb).
  eexists. split; [reflexivity|].
  assert (forall t x y, nodes (print t (close o x y)) = nodes (close o x y)) as Hp by done.
  rewrite Hp, nodes_close_open.
  rewrite wait_header_delimiter, !append_assoc.
  split; [reflexivity|]. split.
  - intros Hcra Hcrb. unfold content_at. destruct Hw as (Hl & _). rewrite Hl.
    rewrite Hp, nodes_close_open, lookup_insert_eq.
    by rewrite !universal_newlines_without_cr.
  - rewrite shown_close_open. unfold merge_lines. by rewrite !append_assoc.
Qed.

Lemma merge_of_two_text_files_witness :
  let h := utf8_host [("sql.trc", 1%N); ("wait.log", 2%N); ("out", 3%N)] in
  let d := {| nodes := {[ 1%N := File "X"; 2%N := File "Y" ]}; shown := [] |} in
  exists d',
    merge_traces h "sql.trc" "wait.log" "out" d = Returned d' /\
    content_at h d' "out" = Some ("X" +:+ nl +:+ spec_delimiter_block +:+ "Y").
Proof.
  intros h d.
  destruct (merge_of_two_text_files h d "sql.trc" "wait.log" "out" 1 2 3 "X" "Y")
    as (d' & Hret & _ & Hout & _).
  - split_and!; [reflexivity | reflexivity | apply not_elem_of_empty | by right].
  - split_and!; [reflexivity | reflexivity | apply not_elem_of_empty | by right].
  - split_and!; [reflexivity | by left | apply not_elem_of_empty].
  - discriminate.
  - discriminate.
  - exists d'. split; [exact Hret|]. apply Hout; reflexivity.
Defined.

(** Empty inputs are inputs like others: the output is the header. *)
Example merge_of_empty_files :
  let h := utf8_host [("sql.trc", 1%N); ("wait.log", 2%N); ("out", 3%N)] in
  let d := {| nodes := {[ 1%N := File ""; 2%N := File "" ]}; shown := [] |} in
  let r := merge_traces h "sql.trc" "wait.log" "out" d in
  raised r = None /\
  content_at h (disk_after r) "out" = Some (nl +:+ spec_delimiter_block).
Proof. split; vm_compute; reflexivity. Qed.

(** C1 as stated fails. The code writes a line end between the SQL
    trace and the first line of "="; a carriage return of an input does
    not reach the output; an input whose bytes do not decode ends the
    call with [UnicodeDecodeError] and an empty output; an output path
    that is another spelling of the SQL trace path empties the SQL trace
    before it is read; an output path that leads nowhere ends the call
    before anything is written; and a wait log that the process may not
    read ends it after the header. *)
Lemma merge_is_not_plain_concatenation :
  let h := utf8_host [("sql.trc", 1%N); ("./sql.trc", 1%N);
                      ("wait.log", 2%N); ("out", 3%N)] in
  (let d := {| nodes := {[ 1%N := File "X"; 2%N := File "Y" ]}; shown := [] |} in
   let r := merge_traces h "sql.trc" "wait.log" "out" d in
   raised r = None /\
   content_at h (disk_after r) "out"
     = Some ("X" +:+ nl +:+ spec_delimiter_block +:+ "Y") /\
   content_at h (disk_after r) "out"
     <> Some ("X" +:+ spec_delimiter_block +:+ "Y")) /\
  (let a := String "X" (String CR nl) in
   let d := {| nodes := {[ 1%N := File a; 2%N := File "Y" ]}; shown := [] |} in
   let r := merge_traces h "sql.trc" "wait.log" "out" d in
   raised r = None /\
   content_at h (disk_after r) "out"
     = Some (String "X" nl +:+ nl +:+ spec_delimiter_block +:+ "Y") /\
   content_at h (disk_after r) "out"
     <> Some (a +:+ nl +:+ spec_delimiter_block +:+ "Y")) /\
  (let a := bytes [88; 255; 90]%N in
   let d := {| nodes := {[ 1%N := File a; 2%N := File "Y" ]}; shown := [] |} in
   let r := merge_traces h "sql.trc" "wait.log" "out" d in
   raised r = Some UnicodeDecodeError /\
   content_at h (disk_after r) "out" = Some "") /\
  (let d := {| nodes := {[ 1%N := File "X"; 2%N := File "Y" ]}; shown := [] |} in
   let r := merge_traces h "sql.trc" "wait.log" "./sql.trc" d in
   raised r = None /\
   content_at h (disk_after r) "./sql.trc"
     = Some (nl +:+ spec_delimiter_block +:+ "Y")) /\
  (let d := {| nodes := {[ 1%N := File "X"; 2%N := File "Y" ]}; shown := [] |} in
   let r := merge_traces h "sql.trc" "wait.log" "" d in
   raised r = Some FileNotFoundError /\
   nodes (disk_after r) = nodes d) /\
  (let h' := {| locate := locate h; decodes := decodes h;
                read_denied := {[ 2%N ]}; write_denied := ∅;
                flush_point := flush_point h |} in
   let d := {| nodes := {[ 1%N := File "X"; 2%N := File "Y" ]}; shown := [] |} in
   let r := merge_traces h' "sql.trc" "wait.log" "out" d in
   raised r = Some PermissionError /\
   content_at h' (disk_after r) "out" = Some ("X" +:+ nl +:+ spec_delimiter_block)).
Proof.
  cbv zeta. split_and!; try (vm_compute; reflexivity); vm_compute; discriminate.
Qed.

(** C2, as the code has it. The SQL trace is a regular file that the
    process may read and whose bytes decode; there is nothing at the
    wait-log path; the output path leads to a place where a file can be
    written, which is neither the SQL trace nor what the wait-log path
    names. Then the call returns, having printed its two progress lines
    only, and the output file holds the text of the SQL trace and
    nothing more: no delimiter block. For a content without carriage
    return that is the content itself. No other file changes. *)
Theorem merge_without_wait_log (h : host) (d : disk) (ext wait out : string)
    (i o : N) (a : string) :
  text_file h d ext i a ->
  missing h d wait o ->
  writable h d out o ->
  o <> i ->
  exists d',
    merge_traces h ext wait out d = Returned d' /\
    nodes d' = <[o := File (universal_newlines a)]> (nodes d) /\
    (has_cr a = false -> content_at h d' out = Some a) /\
    shown d' = shown d ++ merge_lines out.
Proof.
  intros Ha (Hb & Hbo) Hw Hi.
  rewrite (merge_traces_apart h ext wait out d o Hw
             (text_file_not_at _ _ _ _ _ _ Ha Hi) Hbo).
  rewrite (exists_text_file _ _ _ _ _ Ha), (read_text_file _ _ _ _ _ Ha), Hb.
  eexists. split; [reflexivity|].
  assert (forall t x y, nodes (print t (close o x y)) = nodes (close o x y)) as Hp by done.
  rewrite Hp, nodes_close_open.
  split; [reflexivity|]. split.
  - intros Hcr. unfold content_at. destruct Hw as (Hl & _). rewrite Hl.
    rewrite Hp, nodes_close_open, lookup_insert_eq.
    by rewrite universal_newlines_without_cr.
  - rewrite shown_close_open. unfold merge_lines. by rewrite !append_assoc.
Qed.

Lemma merge_without_wait_log_witness :
  let h := utf8_host [("sql.trc", 1%N); ("wait.log", 2%N); ("out", 3%N)] in
  let d := {| nodes := {[ 1%N := File "X" ]}; shown := [] |} in
  exists d',
    merge_traces h "sql.trc" "wait.log" "out" d = Returned d' /\
    content_at h d' "out" = Some "X" /\
    shown d' = merge_lines "out".
Proof.
  intros h d.
  destruct (merge_without_wait_log h d "sql.trc" "wait.log" "out" 1 3 "X")
    as (d' & Hret & _ & Hout & Hshown).
  - split_and!; [reflexivity | reflexivity | apply not_elem_of_empty | by right].
  - split; [reflexivity | discriminate].
  - split_and!; [reflexivity | by left | apply not_elem_of_empty].
  - discriminate.
  - exists d'. split; [exact Hret|]. split; [apply Hout; reflexivity | exact Hshown].
Defined.

(** C2 as stated fails: without a wait log no header is written. The
    header is there only when the output is written at the wait-log
    path itself, which the call then finds, empty. *)
Lemma merge_without_wait_log_has_no_header :
  let h := utf8_host [("sql.trc", 1%N); ("wait.log", 2%N); ("out", 3%N)] in
  let d := {| nodes := {[ 1%N := File "X" ]}; shown := [] |} in
  (let r := merge_traces h "sql.trc" "wait.log" "out" d in
   raised r = None /\
   content_at h (disk_after r) "out" = Some "X" /\
   content_at h (disk_after r) "out" <> Some ("X" +:+ spec_delimiter_block) /\
   content_at h (disk_after r) "out" <> Some ("X" +:+ wait_header)) /\
  (let r := merge_traces h "sql.trc" "wait.log" "wait.log" d in
   raised r = None /\
   content_at h (disk_after r) "wait.log" = Some ("X" +:+ wait_header)).
Proof.
  cbv zeta. split_and!; try (vm_compute; reflexivity); vm_compute; discriminate.
Qed.

End MergeClaims.

(** ** The session *)

Module SessionFacts.
Import Orchestrate StringFacts MergeFacts Vocabulary.

Local Open Scope Z_scope.

(** The monitoring loop never leaves the program by itself. *)
Lemma monitor_returns trace_file snaps last_size w :
  exists w', monitor trace_file snaps last_size w = (inl tt, w') /\
    (forall x, x ∈ log w -> x ∈ log w').
Proof.
  revert last_size w. induction snaps as [|fs snaps IH]; intros last_size w.
  - exists w. split; [reflexivity | done].
  - simpl. unfold mbind, M_bind, lift, ask. simpl.
    destruct (fs !! trace_file) as [content|].
    + destruct (bool_decide (String.length content = last_size)); simpl.
      * edestruct IH as (w' & -> & Hlog). eexists. split; [reflexivity|].
        intros x Hx. apply Hlog. simpl. set_solver.
      * edestruct IH as (w' & -> & Hlog). eexists. split; [reflexivity|].
        intros x Hx. apply Hlog. simpl. set_solver.
    + edestruct IH as (w' & -> & Hlog). eexists. split; [reflexivity|].
      intros x Hx. apply Hlog. simpl. set_solver.
Qed.

Lemma log_emit_old x y w : x ∈ log w -> x ∈ log (emit y w).
Proof. unfold emit. simpl. set_solver. Qed.

Lemma log_emit_new y w : y ∈ log (emit y w).
Proof. unfold emit. simpl. set_solver. Qed.

Lemma log_print_old x t w : x ∈ log w -> x ∈ log (print t w).
Proof. apply log_emit_old. Qed.

Lemma log_eprint_old x t w : x ∈ log w -> x ∈ log (eprint t w).
Proof. apply log_emit_old. Qed.

Lemma log_merge_old x ext wait out w :
  x ∈ log w -> x ∈ log (merge_traces ext wait out w).
Proof. rewrite merge_traces_log. set_solver. Qed.

Create HintDb session.
#[local] Hint Resolve log_emit_old log_emit_new log_print_old log_eprint_old
  log_merge_old : session.

Ltac not_in_log H :=
  repeat (apply elem_of_cons in H as [H|H]; [discriminate H|]);
  by apply elem_of_nil in H.

Ltac run_main :=
  unfold main, mbind, M_bind, ask, os_path_exists, lift, sys_exit;
  cbn -[str_repeat print eprint merge_traces monitor].

(** [main] when the trace file is missing. *)
Lemma main_without_trace_file e a w :
  files w !! arg_trace_file a = None ->
  main e a w =
    (inr 1,
     eprint "Have you called pg_trace_start_trace() in PostgreSQL?"
       (eprint ("Error: Trace file not found: " +:+ arg_trace_file a) w)).
Proof. intros H. run_main. rewrite H. reflexivity. Qed.

Lemma banner_log a w :
  Stdout ("Combined output: " +:+ output_file_of a +:+ nl) ∈ log (banner a w) /\
  (forall x, x ∈ log w -> x ∈ log (banner a w)).
Proof.
  unfold banner. split.
  - do 2 apply log_print_old. apply log_emit_new.
  - intros x Hx. auto 12 with session.
Qed.

(** [main] when the session runs to its end. *)
Lemma main_complete_session e a w :
  is_Some (files w !! arg_trace_file a) ->
  ebpf_script_exists e = true ->
  tracer_exited e = None ->
  exists w1,
    files w1 = fs_at_stop e /\
    (forall x, x ∈ log (banner a w) -> x ∈ log w1) /\
    main e a w =
      (inl tt,
       let w2 := merge_traces (arg_trace_file a) (wait_file_of a)
                   (output_file_of a) w1 in
       set_files (delete (wait_file_of a) (files w2)) w2).
Proof.
  intros Hf Hs Ht. run_main.
  rewrite bool_decide_eq_true_2 by done.
  cbn -[str_repeat print eprint merge_traces monitor]. rewrite Hs, Ht.
  cbn -[str_repeat print eprint merge_traces monitor].
  fold (banner a w).
  match goal with
  | |- context [monitor ?t ?p ?n ?w0] =>
      destruct (monitor_returns t p n w0) as (wm & -> & Hlog)
  end.
  exists (print (nl +:+ "Merging trace files...")
            (set_files (fs_at_stop e)
               (emit WaitChild
                  (emit SendSigint
                     (print (nl +:+ nl +:+ "Stopping trace...") wm))))).
  split; [reflexivity|]. split.
  - intros x Hx. apply log_print_old. unfold set_files. simpl log.
    change (x ∈ log (emit WaitChild (emit SendSigint
                 (print (nl +:+ nl +:+ "Stopping trace...") wm)))).
    do 2 apply log_emit_old. apply log_print_old. apply Hlog.
    auto 12 with session.
  - set (w2 := merge_traces _ _ _ _).
    case_bool_decide as Hw; [reflexivity|].
    unfold mret, M_ret. f_equal. unfold set_files.
    rewrite delete_id by (by apply eq_None_not_Some).
    by destruct w2.
Qed.

(** C10: when the SQL trace file does not exist at the start, the
    process exits with status 1 without having started the tracer, so
    before the running phase, and leaves the file system as it was;
    when the file exists and no output path is given, the output path is
    the trace path followed by ".complete": a session that runs to its
    end announces that path and merges into it. *)
Theorem session_start (e : env) (a : args) :
  (fs_start e !! arg_trace_file a = None ->
     (program e a).1 = 1 /\
     files (program e a).2 = fs_start e /\
     ~ tracer_started (program e a).2 /\
     ~ reached_running (program e a).2) /\
  (is_Some (fs_start e !! arg_trace_file a) -> arg_output a = None ->
     output_file_of a = arg_trace_file a +:+ ".complete" /\
     (euid e = 0 -> ebpf_script_exists e = true -> tracer_exited e = None ->
        (program e a).1 = 0 /\
        Stdout ("Combined output: " +:+ arg_trace_file a +:+ ".complete" +:+ nl)
          ∈ log (program e a).2 /\
        exists w1, files w1 = fs_at_stop e /\
          files (program e a).2 =
            delete (wait_file_of a)
              (files (merge_traces (arg_trace_file a) (wait_file_of a)
                        (arg_trace_file a +:+ ".complete") w1)))).
Proof.
  split.
  - intros Hmiss. unfold program, tracer_started, reached_running.
    destruct (negb (euid e =? 0)).
    + simpl. repeat split; try done.
      * intros [argv H]. not_in_log H.
      * intros H. not_in_log H.
    + rewrite main_without_trace_file by done. simpl.
      repeat split; try done.
      * intros [argv H]. not_in_log H.
      * intros H. not_in_log H.
  - intros Hfound Hout.
    assert (output_file_of a = arg_trace_file a +:+ ".complete") as Hdef
      by (unfold output_file_of; by rewrite Hout).
    split; [exact Hdef|]. intros Hroot Hscript Halive.
    unfold program. rewrite Hroot. simpl negb. cbv iota.
    destruct (main_complete_session e a {| files := fs_start e; log := [] |})
      as (w1 & Hfs & Hlog & ->); try done.
    cbn [fst snd]. split; [done|]. split.
    + unfold set_files. cbn [log]. apply log_merge_old. apply Hlog.
      destruct (banner_log a {| files := fs_start e; log := [] |}) as [Hb _].
      rewrite Hdef, append_assoc in Hb. exact Hb.
    + exists w1. by rewrite <- Hdef.
Qed.

Lemma session_start_witness :
  let a := {| arg_pid := 4242; arg_trace_file := "/tmp/pg.trc";
              arg_output := None; arg_wait_only := false |} in
  let missing := {| euid := 0; fs_start := ∅;
                    ebpf_script := "/opt/pg_trace/pg_trace_waits.py";
                    ebpf_script_exists := true; tracer_exited := None;
                    polls := []; fs_at_stop := ∅ |} in
  let present := {| euid := 0; fs_start := {[ "/tmp/pg.trc" := "X" ]}%string;
                    ebpf_script := "/opt/pg_trace/pg_trace_waits.py";
                    ebpf_script_exists := true; tracer_exited := None;
                    polls := [ {[ "/tmp/pg.trc" := "XX" ]}%string ];
                    fs_at_stop := {[ "/tmp/pg.trc" := "XX";
                                     "/tmp/pg_trace_waits_4242.log" := "W" ]}%string |} in
  (program missing a).1 = 1 /\
  output_file_of a = "/tmp/pg.trc.complete"%string /\
  (program present a).1 = 0.
Proof.
  intros a missing present.
  destruct (session_start missing a) as [Hmiss _].
  destruct (session_start present a) as [_ Hpres].
  destruct Hmiss as (H1 & _); [reflexivity|].
  destruct Hpres as (H2 & H3); [vm_compute; eauto | reflexivity |].
  destruct H3 as (H3 & _); [reflexivity | reflexivity | reflexivity |].
  split; [exact H1|]. split; [exact H2 | exact H3].
Defined.

(** What that session leaves: the two sections in the default output
    file, and the wait log removed. *)
Example complete_session_files :
  let a := {| arg_pid := 4242; arg_trace_file := "/tmp/pg.trc";
              arg_output := None; arg_wait_only := false |} in
  let present := {| euid := 0; fs_start := {[ "/tmp/pg.trc" := "X" ]}%string;
                    ebpf_script := "/opt/pg_trace/pg_trace_waits.py";
                    ebpf_script_exists := true; tracer_exited := None;
                    polls := [ {[ "/tmp/pg.trc" := "XX" ]}%string ];
                    fs_at_stop := {[ "/tmp/pg.trc" := "XX";
                                     "/tmp/pg_trace_waits_4242.log" := "W" ]}%string |} in
  files (program present a).2 !! "/tmp/pg.trc.complete"%string
    = Some ("XX" +:+ wait_header +:+ "W") /\
  files (program present a).2 !! "/tmp/pg_trace_waits_4242.log"%string = None.
Proof. split; reflexivity. Qed.

End SessionFacts.

(** * Further properties *)

(** ** The wait timer, beyond single waits *)

Module TimerSessions.
Import Bpf BpfFacts Waits Vocabulary SessionVocabulary WaitTimer.

Local Open Scope Z_scope.

Lemma submits_unique st st' l1 l2 :
  submits st st' l1 -> submits st st' l2 -> l1 = l2.
Proof. unfold submits. intros H1 H2. rewrite H1 in H2. by apply app_inv_head in H2. Qed.

(** What one hit adds: nothing, or for an end hit at most the one record
    of that hit. *)
Lemma probe_new_events mx h st :
  exists l, submits st (probe mx h st) l /\
    (length l <= if is_end_hit h then 1 else 0)%nat /\
    Forall (fun e => timestamp_ns e = hit_time h /\ pid e = hit_pid h /\
                     tid e = hit_tid h /\
                     cursor_id e = default 0 (pid_to_cursor st !! hit_pid h) /\
                     wait_event_info e = 0 /\ is_u64 (duration_ns e) /\
                     wait_name e = replicate 64 0) l.
Proof.
  assert (forall pt now, exists l, submits st (trace_wait_end pt now st) l /\
            (length l <= 1)%nat /\
            Forall (fun e => timestamp_ns e = now /\ pid e = u32 (Z.shiftr pt 32) /\
                     tid e = u32 pt /\
                     cursor_id e = default 0 (pid_to_cursor st !! u32 (Z.shiftr pt 32)) /\
                     wait_event_info e = 0 /\ is_u64 (duration_ns e) /\
                     wait_name e = replicate 64 0) l) as Hend.
  { intros pt now. destruct (wait_starts st !! u32 pt) as [start|] eqn:Hs.
    - rewrite (trace_wait_end_pending _ _ _ _ Hs). unfold submits.
      cbn [wait_events]. eexists. split; [reflexivity|].
      destruct (u64 (now - start) <? 1000).
      { split; [simpl; lia | constructor]. }
      split; [simpl; lia|]. constructor; [|constructor].
      destruct (create_event_fields (u32 (Z.shiftr pt 32)) (u32 pt) now
                  (u64 (now - start)) (pid_to_cursor st))
        as (H1 & H2 & H3 & H4 & H5 & H6 & H7).
      rewrite H1, H2, H3, H4, H5, H6, H7.
      split_and!; try reflexivity. apply u64_range.
    - rewrite (trace_wait_end_absent _ _ _ Hs). exists []. unfold submits.
      rewrite app_nil_r. split_and!; [reflexivity | simpl; lia | constructor]. }
  destruct h as [pt info now | pt now | pt now | pt now];
    unfold hit_pid, hit_tid, trace_buffer_read_done;
    cbn [probe is_end_hit hit_time hit_pid_tgid].
  - exists []. unfold submits. cbn [trace_wait_start set_wait_starts wait_events].
    rewrite app_nil_r. split_and!; [reflexivity | simpl; lia | constructor].
  - exact (Hend pt now).
  - exists []. unfold submits.
    cbn [trace_buffer_read_start set_wait_starts wait_events].
    rewrite app_nil_r. split_and!; [reflexivity | simpl; lia | constructor].
  - exact (Hend pt now).
Qed.

Lemma run_cons mx h hs st :
  run mx (h :: hs) st = run mx hs (probe mx h st).
Proof. reflexivity. Qed.

Lemma run_app mx hs1 hs2 st :
  run mx (hs1 ++ hs2) st = run mx hs2 (run mx hs1 st).
Proof. unfold run. apply foldl_app. Qed.

(** Where the records of a session come from: each is the record of one
    end hit of the session, and there are no more records than end
    hits. *)
Lemma run_new_events mx hs st :
  exists l, submits st (run mx hs st) l /\
    (length l <= length (filter (fun h => is_end_hit h = true) hs))%nat /\
    Forall (fun e => exists h, h ∈ hs /\ is_end_hit h = true /\
                     timestamp_ns e = hit_time h /\ pid e = hit_pid h /\
                     tid e = hit_tid h /\
                     cursor_id e = default 0 (pid_to_cursor st !! hit_pid h) /\
                     wait_event_info e = 0 /\ is_u64 (duration_ns e) /\
                     wait_name e = replicate 64 0) l.
Proof.
  revert st. induction hs as [|h hs IH]; intros st.
  - exists []. unfold submits. cbn [run foldl]. rewrite app_nil_r.
    split_and!. reflexivity. (simpl; lia). constructor.
  - rewrite run_cons.
    destruct (probe_new_events mx h st) as (l1 & Hl1 & Hn1 & Hf1).
    destruct (IH (probe mx h st)) as (l2 & Hl2 & Hn2 & Hf2).
    assert (pid_to_cursor (probe mx h st) = pid_to_cursor st) as Hc.
    { destruct (probe_submits mx h st) as (l0 & _ & Hc & _). exact Hc. }
    exists (l1 ++ l2). split_and!.
    + unfold submits in *. rewrite Hl2, Hl1. by rewrite app_assoc.
    + rewrite length_app, filter_cons.
      destruct (is_end_hit h) eqn:He.
      * rewrite decide_True by done. simpl. lia.
      * rewrite decide_False by done. lia.
    + apply Forall_app. split.
      * destruct (is_end_hit h) eqn:He.
        -- eapply Forall_impl; [exact Hf1|]. intros e Hprops. exists h.
           split; [left|]. split; [exact He | exact Hprops].
        -- destruct l1; [constructor | simpl in Hn1; lia].
      * eapply Forall_impl; [exact Hf2|].
        intros e (h' & Hin & Hprops). exists h'. split; [by right|].
        rewrite <- Hc. exact Hprops.
Qed.
Lemma trace_wait_end_clears pt now st :
  wait_starts (trace_wait_end pt now st) !! u32 pt = None.
Proof.
  destruct (wait_starts st !! u32 pt) as [start|] eqn:Hs.
  - rewrite (trace_wait_end_pending _ _ _ _ Hs). cbn [wait_starts].
    apply lookup_delete_eq.
  - rewrite (trace_wait_end_absent _ _ _ Hs). exact Hs.
Qed.

Lemma trace_wait_end_other pt now st j :
  j <> u32 pt ->
  wait_starts (trace_wait_end pt now st) !! j = wait_starts st !! j.
Proof.
  intros Hj. destruct (wait_starts st !! u32 pt) as [start|] eqn:Hs.
  - rewrite (trace_wait_end_pending _ _ _ _ Hs). cbn [wait_starts].
    by apply lookup_delete_ne.
  - by rewrite (trace_wait_end_absent _ _ _ Hs).
Qed.

Lemma probe_other mx h st j :
  hit_tid h <> j ->
  wait_starts (probe mx h st) !! j = wait_starts st !! j.
Proof.
  intros Hj. unfold hit_tid in Hj.
  destruct h as [pt info now | pt now | pt now | pt now];
    cbn [hit_pid_tgid] in Hj; cbn [probe].
  - unfold trace_wait_start. cbn [set_wait_starts wait_starts].
    apply hash_update_lookup_other. congruence.
  - apply trace_wait_end_other. congruence.
  - unfold trace_buffer_read_start. cbn [set_wait_starts wait_starts].
    apply hash_update_lookup_other. congruence.
  - unfold trace_buffer_read_done. apply trace_wait_end_other. congruence.
Qed.

(** X1: whatever happened before, once a wait-end (or buffer-read-done)
    probe of a thread has run, the thread has no entry in [wait_starts]:
    the entry is deleted on the reporting path and on the suppressed
    path, and there was none on the early-return path. *)
Theorem end_hit_clears_its_thread (max_entries : Z)
    (hs : list probe_hit) (h : probe_hit) (st : bpf_state) :
  is_end_hit h = true ->
  wait_starts (run max_entries (hs ++ [h]) st) !! hit_tid h = None.
Proof.
  intros He. rewrite run_app. generalize (run max_entries hs st). intros s.
  unfold hit_tid.
  destruct h as [pt info now | pt now | pt now | pt now];
    try discriminate He; cbn [hit_pid_tgid]; apply trace_wait_end_clears.
Qed.

Lemma end_hit_clears_its_thread_witness :
  wait_starts
    (run 10240 ([WaitStartHit (pid_tgid_of 100 5) 0 0;
                 WaitStartHit (pid_tgid_of 100 6) 0 10] ++
                [WaitEndHit (pid_tgid_of 100 5) 700]) (loaded ∅))
  !! hit_tid (WaitEndHit (pid_tgid_of 100 5) 700) = None.
Proof.
  apply (end_hit_clears_its_thread 10240
           [WaitStartHit (pid_tgid_of 100 5) 0 0;
            WaitStartHit (pid_tgid_of 100 6) 0 10]
           (WaitEndHit (pid_tgid_of 100 5) 700) (loaded ∅)).
  reflexivity.
Defined.

(** X2: the probes of one thread never touch the pending wait of
    another: after a session in which no hit ran on thread [j], the
    entry of [j] in [wait_starts] is what it was. *)
Theorem session_leaves_other_threads_alone (max_entries : Z)
    (hs : list probe_hit) (st : bpf_state) (j : Z) :
  Forall (fun h => hit_tid h <> j) hs ->
  wait_starts (run max_entries hs st) !! j = wait_starts st !! j.
Proof.
  revert st. induction hs as [|h hs IH]; intros st Hall; [reflexivity|].
  apply Forall_cons in Hall as [Hh Hall]. rewrite run_cons, IH by exact Hall.
  by apply probe_other.
Qed.

Lemma session_leaves_other_threads_alone_witness :
  let st := trace_wait_start 10240 (pid_tgid_of 100 7) 0 42 (loaded ∅) in
  wait_starts
    (run 10240 [WaitStartHit (pid_tgid_of 100 5) 0 50;
                WaitEndHit (pid_tgid_of 100 5) 5000;
                BufferReadDoneHit (pid_tgid_of 100 6) 6000] st) !! 7
  = Some 42.
Proof.
  intros st.
  rewrite (session_leaves_other_threads_alone 10240 _ st 7).
  - reflexivity.
  - repeat constructor; vm_compute; discriminate.
Defined.

(** X3: a wait whose start was recorded at [s] and that ends at
    [e >= s + 1000], both clock values within 64 bits, is reported by
    exactly one record, with [duration_ns = e - s] without rounding or
    wrap-around, [timestamp_ns = e], the pid and tid of the thread, the
    cursor of the pid (0 if none), and the code and name left at zero. *)
Theorem recorded_wait_is_reported_exactly (max_entries : Z)
    (p t info s e : Z) (st : bpf_state) :
  is_u32 p -> is_u32 t ->
  0 <= s -> s + 1000 <= e -> e < 2 ^ 64 ->
  is_Some (wait_starts st !! t) \/ Z.of_nat (size (wait_starts st)) < max_entries ->
  submits st
    (trace_wait_end (pid_tgid_of p t) e
       (trace_wait_start max_entries (pid_tgid_of p t) info s st))
    [ {| timestamp_ns := e; pid := p; tid := t;
         cursor_id := default 0 (pid_to_cursor st !! p);
         wait_event_info := 0; duration_ns := e - s;
         wait_name := replicate 64 0 |} ].
Proof.
  intros Hp Ht Hs Hse He Hroom.
  pose proof (tid_of_pid_tgid p t Ht) as Htid.
  pose proof (pid_of_pid_tgid p t Hp Ht) as Hpid.
  rewrite wait_pair by (by rewrite Htid).
  unfold submits. cbn [wait_events]. f_equal.
  assert (u64 (e - s) = e - s) as Hd by (unfold u64; apply Z.mod_small; lia).
  rewrite Hd, Htid, Hpid.
  destruct (Z.ltb_spec (e - s) 1000); [lia|]. f_equal.
  unfold create_event. by destruct (pid_to_cursor st !! p).
Qed.

Lemma recorded_wait_is_reported_exactly_witness :
  submits (loaded {[ 100 := 42 ]})
    (trace_wait_end (pid_tgid_of 100 5) 5000
       (trace_wait_start 10240 (pid_tgid_of 100 5) 0x05000001 0
          (loaded {[ 100 := 42 ]})))
    [ {| timestamp_ns := 5000; pid := 100; tid := 5; cursor_id := 42;
         wait_event_info := 0; duration_ns := 5000;
         wait_name := replicate 64 0 |} ].
Proof.
  assert (is_u32 100 /\ is_u32 5) as [Hp Ht] by (unfold is_u32; lia).
  assert (Z.of_nat (size (wait_starts (loaded {[ 100 := 42 ]}))) < 10240)
    as Hroom by (vm_compute; reflexivity).
  exact (recorded_wait_is_reported_exactly 10240 100 5 0x05000001 0 5000
           (loaded {[ 100 := 42 ]}) Hp Ht ltac:(lia) ltac:(lia) ltac:(lia)
           (or_intror Hroom)).
Defined.

(** X4: when [wait_starts] is full, the wait of a thread that has no
    entry is lost without a trace: the update of the start is refused,
    the state does not change, and the wait-end that follows finds
    nothing and reports nothing, however long the wait was. *)
Theorem full_table_loses_the_wait (max_entries : Z)
    (pt info s e : Z) (st : bpf_state) :
  max_entries <= Z.of_nat (size (wait_starts st)) ->
  wait_starts st !! u32 pt = None ->
  trace_wait_start max_entries pt info s st = st /\
  trace_wait_end pt e (trace_wait_start max_entries pt info s st) = st.
Proof.
  intros Hfull Hnone.
  assert (trace_wait_start max_entries pt info s st = st) as Hst.
  { unfold trace_wait_start, hash_update. cbn zeta. rewrite Hnone.
    rewrite decide_False by lia. by destruct st. }
  split; [exact Hst|]. rewrite Hst. by apply trace_wait_end_absent.
Qed.

Lemma full_table_loses_the_wait_witness :
  let st := run 2 [WaitStartHit (pid_tgid_of 100 5) 0 0;
                   WaitStartHit (pid_tgid_of 100 6) 0 10] (loaded ∅) in
  trace_wait_end (pid_tgid_of 100 7) 900000
    (trace_wait_start 2 (pid_tgid_of 100 7) 0 20 st) = st.
Proof.
  intros st.
  apply (full_table_loses_the_wait 2 (pid_tgid_of 100 7) 0 20 900000 st).
  - vm_compute. discriminate.
  - reflexivity.
Defined.

(** X5: from the freshly loaded program on, [wait_starts] never holds
    more entries than its capacity, whatever the probes that run: threads
    that start waits and never end them cannot grow it further. *)
Theorem pending_table_stays_within_capacity (max_entries : Z)
    (hs : list probe_hit) (cursors : gmap Z Z) :
  0 <= max_entries ->
  Z.of_nat (size (wait_starts (run max_entries hs (loaded cursors)))) <= max_entries.
Proof.
  intros Hmx. apply run_respects_capacity.
  cbn [loaded wait_starts]. rewrite map_size_empty. lia.
Qed.

Lemma pending_table_stays_within_capacity_witness :
  Z.of_nat (size (wait_starts
     (run 2 [WaitStartHit (pid_tgid_of 100 5) 0 0;
             WaitStartHit (pid_tgid_of 100 6) 0 10;
             WaitStartHit (pid_tgid_of 100 7) 0 20] (loaded ∅)))) <= 2.
Proof.
  apply (pending_table_stays_within_capacity 2
           [WaitStartHit (pid_tgid_of 100 5) 0 0;
            WaitStartHit (pid_tgid_of 100 6) 0 10;
            WaitStartHit (pid_tgid_of 100 7) 0 20] ∅).
  lia.
Defined.

(** X6: a session only appends to the perf output, and every record it
    appends is the record of one of its wait-end or buffer-read-done
    hits, with the clock value, pid and tid of that hit; there are no
    more new records than such hits. Start probes never submit. *)
Theorem records_come_from_end_hits (max_entries : Z)
    (hs : list probe_hit) (st : bpf_state) :
  exists l, wait_events (run max_entries hs st) = wait_events st ++ l /\
    (length l <= length (filter (fun h => is_end_hit h = true) hs))%nat /\
    Forall (fun e => exists h, h ∈ hs /\ is_end_hit h = true /\
                     timestamp_ns e = hit_time h /\ pid e = hit_pid h /\
                     tid e = hit_tid h) l.
Proof.
  destruct (run_new_events max_entries hs st) as (l & Hl & Hn & Hf).
  exists l. split; [exact Hl|]. split; [exact Hn|].
  eapply Forall_impl; [exact Hf|].
  intros e (h & Hin & He & Hts & Hp & Ht & _). exists h. auto.
Qed.

Lemma non_decreasing_singleton_app (x : Z) (l : list Z) :
  Forall (fun y => x <= y) l -> non_decreasing l -> non_decreasing (x :: l).
Proof. intros H1 H2. split; assumption. Qed.

Lemma run_timestamps mx hs st lo :
  Forall (fun h => lo <= hit_time h) hs ->
  non_decreasing (map hit_time hs) ->
  exists l, submits st (run mx hs st) l /\
    Forall (fun e => lo <= timestamp_ns e) l /\
    non_decreasing (map timestamp_ns l).
Proof.
  revert st lo. induction hs as [|h hs IH]; intros st lo Hlo Hnd.
  - exists []. unfold submits. cbn [run foldl]. rewrite app_nil_r.
    split_and!; [reflexivity | constructor | exact I].
  - rewrite run_cons. apply Forall_cons in Hlo as [Hh Hlo].
    cbn [map non_decreasing] in Hnd. destruct Hnd as [Hge Hnd].
    apply (proj1 (List.Forall_map _ _ _)) in Hge.
    destruct (probe_new_events mx h st) as (l1 & Hl1 & Hn1 & Hf1).
    destruct (IH (probe mx h st) (hit_time h) Hge Hnd) as (l2 & Hl2 & Hlo2 & Hnd2).
    exists (l1 ++ l2). split_and!.
    + unfold submits in *. rewrite Hl2, Hl1. by rewrite app_assoc.
    + apply Forall_app. split.
      * eapply Forall_impl; [exact Hf1|]. intros e (Hts & _). rewrite Hts. exact Hh.
      * eapply Forall_impl; [exact Hlo2|]. cbn beta. intros e He. lia.
    + destruct l1 as [|e1 [|e1' l1]].
      * exact Hnd2.
      * apply Forall_cons in Hf1 as [(Hts & _) _].
        cbn [app map]. apply non_decreasing_singleton_app; [|exact Hnd2].
        apply (proj2 (List.Forall_map _ _ _)). rewrite Hts. exact Hlo2.
      * exfalso. destruct (is_end_hit h); simpl in Hn1; lia.
Qed.



(** X8: the buffer-read probes share [wait_starts] with the wait probes.
    A wait that starts and ends inside a buffer read takes over the entry
    of the thread: the wait is timed from its own start, and the
    buffer-read-done that follows finds no entry, so the buffer read
    itself is never reported. *)
Theorem nested_wait_takes_over_buffer_read (max_entries : Z)
    (pt info t0 t1 t2 t3 : Z) (st : bpf_state) :
  is_Some (wait_starts st !! u32 pt) \/ Z.of_nat (size (wait_starts st)) < max_entries ->
  run max_entries [BufferReadStartHit pt t0; WaitStartHit pt info t1;
                   WaitEndHit pt t2; BufferReadDoneHit pt t3] st
  = run max_entries [WaitStartHit pt info t1; WaitEndHit pt t2] st /\
  submits st
    (run max_entries [BufferReadStartHit pt t0; WaitStartHit pt info t1;
                      WaitEndHit pt t2; BufferReadDoneHit pt t3] st)
    (if u64 (t2 - t1) <? 1000 then []
     else [create_event (u32 (Z.shiftr pt 32)) (u32 pt) t2 (u64 (t2 - t1))
             (pid_to_cursor st)]).
Proof.
  intros Hroom.
  assert (forall s, trace_wait_start max_entries pt info t1
                      (trace_buffer_read_start max_entries pt t0 s)
                    = trace_wait_start max_entries pt info t1 s) as Hover.
  { intros s. unfold trace_wait_start, trace_buffer_read_start, set_wait_starts.
    cbn [wait_starts pid_to_cursor wait_events]. by rewrite hash_update_twice. }
  assert (run max_entries [WaitStartHit pt info t1; WaitEndHit pt t2] st
          = trace_wait_end pt t2 (trace_wait_start max_entries pt info t1 st))
    as Hpair by reflexivity.
  assert (run max_entries [BufferReadStartHit pt t0; WaitStartHit pt info t1;
                           WaitEndHit pt t2; BufferReadDoneHit pt t3] st
          = trace_wait_end pt t3
              (trace_wait_end pt t2 (trace_wait_start max_entries pt info t1 st)))
    as Hfour.
  { cbn [run foldl probe]. unfold trace_buffer_read_done. by rewrite Hover. }
  rewrite Hfour, Hpair.
  rewrite (trace_wait_end_absent pt t3) by apply trace_wait_end_clears.
  split; [reflexivity|].
  rewrite wait_pair by exact Hroom. unfold submits. reflexivity.
Qed.

Lemma nested_wait_takes_over_buffer_read_witness :
  let pt := pid_tgid_of 100 5 in
  submits (loaded ∅)
    (run 10240 [BufferReadStartHit pt 0; WaitStartHit pt 0 4000;
                WaitEndHit pt 6000; BufferReadDoneHit pt 90000] (loaded ∅))
    [create_event 100 5 6000 2000 ∅].
Proof.
  intros pt.
  destruct (nested_wait_takes_over_buffer_read 10240 pt 0 0 4000 6000 90000
              (loaded ∅)) as [_ H].
  - right. vm_compute. reflexivity.
  - exact H.
Defined.

(** X9: every record of a session fits the types of
    [struct wait_event_t], provided the clock values fit 64 bits and so do
    the cursors published in [pid_to_cursor]: pid, tid and the wait code
    fit 32 bits, the duration 64 bits, and the name buffer has its 64
    bytes. *)
Theorem records_fit_the_struct (max_entries : Z)
    (hs : list probe_hit) (st : bpf_state) :
  Forall (fun h => is_u64 (hit_time h)) hs ->
  map_Forall (fun _ c => is_u64 c) (pid_to_cursor st) ->
  exists l, wait_events (run max_entries hs st) = wait_events st ++ l /\
    Forall fits_struct l.
Proof.
  intros Htimes Hcursors.
  destruct (run_new_events max_entries hs st) as (l & Hl & _ & Hf).
  exists l. split; [exact Hl|].
  eapply Forall_impl; [exact Hf|].
  intros e (h & Hin & _ & Hts & Hp & Ht & Hc & Hi & Hd & Hn).
  unfold fits_struct. rewrite Hts, Hp, Ht, Hc, Hi, Hn. split_and!.
  - rewrite Forall_forall in Htimes. by apply Htimes.
  - apply u32_range.
  - apply u32_range.
  - destruct (pid_to_cursor st !! hit_pid h) as [c|] eqn:Hlook; cbn [default].
    + exact (Hcursors _ _ Hlook).
    + unfold is_u64. lia.
  - unfold is_u32. lia.
  - exact Hd.
  - apply length_replicate.
Qed.

Lemma records_fit_the_struct_witness :
  exists l,
    wait_events (run 10240 [WaitStartHit (pid_tgid_of 100 5) 0 0;
                            WaitEndHit (pid_tgid_of 100 5) 5000]
                   (loaded {[ 100 := 42 ]}))
    = wait_events (loaded {[ 100 := 42 ]}) ++ l /\
    Forall fits_struct l.
Proof.
  apply (records_fit_the_struct 10240
           [WaitStartHit (pid_tgid_of 100 5) 0 0;
            WaitEndHit (pid_tgid_of 100 5) 5000] (loaded {[ 100 := 42 ]})).
  - repeat constructor; cbn [hit_time]; lia.
  - cbn [loaded pid_to_cursor]. apply map_Forall_singleton. unfold is_u64. lia.
Defined.

End TimerSessions.

(** ** The formatter, beyond one line *)

Module FormatExtras.
Import Bpf Waits StringFacts Vocabulary FormatFacts.

Local Open Scope Z_scope.

Lemma truediv_exponent_bound d :
  0 < d < 2 ^ 64 ->
  exists m e, truediv d 1000 = (m, e) /\ e <= 2 /\
    (0 <= e -> 2 * d - 1000 * 2 ^ e <= 2 * (1000 * 2 ^ e) * m <= 2 * d + 1000 * 2 ^ e) /\
    (e < 0 -> 2 * (d * 2 ^ (- e)) - 1000 <= 2 * 1000 * m <= 2 * (d * 2 ^ (- e)) + 1000).
Proof.
  intros [Hd0 Hd]. unfold truediv.
  destruct (Z.eqb_spec d 0) as [->|Hne]; [lia|].
  change (Z.log2 1000) with 9.
  assert (Z.log2 d < 64) as Hlog by (apply Z.log2_lt_pow2; lia).
  set (e0 := Z.log2 d - 9 - 52).
  set (scaled := fun e : Z =>
         if 0 <=? e then (d, 1000 * 2 ^ e) else (d * 2 ^ (- e), 1000)).
  change (if 0 <=? e0 then (d, 1000 * 2 ^ e0) else (d * 2 ^ (- e0), 1000))
    with (scaled e0).
  set (e := if fst (scaled e0) <? 2 ^ 52 * snd (scaled e0) then e0 - 1 else e0).
  assert (e <= 2) as He by (subst e; destruct (_ <? _); lia).
  exists (rne_div (fst (scaled e)) (snd (scaled e))), e.
  split; [reflexivity|]. split; [exact He|].
  split; intros Hsign; subst scaled; cbn beta.
  - destruct (Z.leb_spec 0 e); [|lia]. cbn [fst snd].
    apply rne_div_bounds. assert (0 < 2 ^ e) by (apply Z.pow_pos_nonneg; lia). lia.
  - destruct (Z.leb_spec 0 e); [lia|]. cbn [fst snd].
    apply rne_div_bounds. lia.
Qed.

(** X10: the elapsed time on a line is never far from the measured one.
    For every duration that fits 64 bits the number printed after [ela=]
    is within 2 microseconds of [duration_ns / 1000]; for durations below
    1000 * 2^44 ns it is the nearest integer: the quotient when the
    remainder is below 500, the quotient plus one when it is above, and
    the even one of the two at 500. The code never truncates. *)
Theorem elapsed_is_close_to_duration (d : Z) :
  0 <= d < 2 ^ 64 ->
  exists v, format_0f (truediv d 1000) = pretty v /\
    -2000 <= 1000 * v - d <= 2000 /\
    (d < 1000 * 2 ^ 44 ->
       (d mod 1000 < 500 -> v = d / 1000) /\
       (500 < d mod 1000 -> v = d / 1000 + 1) /\
       (d mod 1000 = 500 -> Z.even v = true /\ (v = d / 1000 \/ v = d / 1000 + 1))).
Proof.
  intros [Hd0 Hd].
  destruct (Z.ltb_spec d (1000 * 2 ^ 44)) as [Hsmall|Hlarge].
  - exists (rne_div d 1000).
    split; [apply format_0f_truediv_1000; lia|].
    pose proof (rne_div_bounds d 1000 ltac:(lia)) as Hb.
    split; [lia|]. intros _.
    pose proof (Z.div_mod d 1000 ltac:(lia)) as Hdm.
    pose proof (Z.mod_pos_bound d 1000 ltac:(lia)) as Hr.
    rewrite (rne_div_cases d 1000 (d / 1000) (d mod 1000)) by lia.
    split_and!; intros Hcase.
    + destruct (Z.ltb_spec (2 * (d mod 1000)) 1000); [reflexivity | lia].
    + destruct (Z.ltb_spec (2 * (d mod 1000)) 1000); [lia|].
      destruct (Z.ltb_spec 1000 (2 * (d mod 1000))); [reflexivity | lia].
    + destruct (Z.ltb_spec (2 * (d mod 1000)) 1000); [lia|].
      destruct (Z.ltb_spec 1000 (2 * (d mod 1000))); [lia|].
      destruct (Z.even (d / 1000)) eqn:Hev.
      * split; [exact Hev | by left].
      * split; [|by right]. rewrite Z.even_add, Hev. reflexivity.
  - destruct (truediv_exponent_bound d) as (m & e & Heq & He & Hpos & Hneg).
    { change (2 ^ 44) with 17592186044416 in Hlarge. lia. }
    rewrite Heq. unfold format_0f.
    destruct (Z.leb_spec 0 e) as [Hge|Hlt].
    + exists (m * 2 ^ e). split; [reflexivity|]. split; [|lia].
      specialize (Hpos Hge).
      assert (e = 0 \/ e = 1 \/ e = 2) as [-> | [-> | ->]] by lia;
        change (2 ^ 0) with 1 in *; change (2 ^ 1) with 2 in *;
        change (2 ^ 2) with 4 in *; lia.
    + exists (rne_div m (2 ^ (- e))). split; [reflexivity|]. split; [|lia].
      specialize (Hneg Hlt).
      assert (0 < 2 ^ (- e)) as HP by (apply Z.pow_pos_nonneg; lia).
      pose proof (rne_div_bounds m (2 ^ (- e)) HP) as Hv.
      set (P := 2 ^ (- e)) in *. set (v := rne_div m P) in *.
      nia.
Qed.

Lemma elapsed_is_close_to_duration_witness :
  exists v, format_0f (truediv 2500 1000) = pretty v /\ v = 2.
Proof.
  destruct (elapsed_is_close_to_duration 2500) as (v & Hfmt & _ & Hexact); [lia|].
  exists v. split; [exact Hfmt|].
  destruct Hexact as (_ & _ & Htie); [lia|].
  destruct Htie as [Hev [Hv | Hv]]; [reflexivity | | ].
  - rewrite Hv. reflexivity.
  - rewrite Hv in Hev. vm_compute in Hev. discriminate Hev.
Defined.

Lemma append_cancel_l (a b c : string) : a +:+ b = a +:+ c -> b = c.
Proof.
  induction a as [|x a IH]; [done|]. rewrite !append_cons.
  intros H. injection H as H. by apply IH.
Qed.

(** Each name of the table belongs to one code only, and none starts
    like the name of an unknown code. *)
Lemma table_entry c n :
  WAIT_EVENT_NAMES !! c = Some n ->
  (c, n) ∈ [ (0x01000001, "LockManager"); (0x02000001, "BufferPin");
             (0x03000001, "ActivityMain"); (0x03000002, "ActivityAutovacuum");
             (0x04000001, "ClientRead"); (0x04000002, "ClientWrite");
             (0x05000001, "DataFileRead"); (0x05000002, "DataFileWrite");
             (0x05000003, "DataFileExtend"); (0x05000004, "DataFileFlush");
             (0x05000005, "DataFileSync"); (0x05000006, "WALWrite");
             (0x05000007, "WALSync"); (0x06000001, "MessageQueueSend");
             (0x06000002, "MessageQueueReceive") ]%string.
Proof. unfold WAIT_EVENT_NAMES. apply elem_of_list_to_map_2. Qed.

Ltac table_cases H :=
  apply table_entry in H;
  repeat (apply elem_of_cons in H as [H|H]; [injection H as -> -> |]);
  [.. | by apply elem_of_nil in H].

Lemma table_injective c1 c2 n :
  WAIT_EVENT_NAMES !! c1 = Some n -> WAIT_EVENT_NAMES !! c2 = Some n -> c1 = c2.
Proof.
  intros H1 H2. apply table_entry in H2.
  table_cases H1;
    repeat (apply elem_of_cons in H2 as [H2|H2];
            [first [discriminate H2 | by injection H2] |]);
    by apply elem_of_nil in H2.
Qed.

Lemma table_name_is_not_unknown c n rest :
  WAIT_EVENT_NAMES !! c = Some n -> n <> "Unknown:0x" +:+ rest.
Proof. intros H. table_cases H; discriminate. Qed.

(** X11: the name on a line determines the wait code: two 32-bit codes
    that [get_wait_event_name] renders alike are the same code, whether
    they are in [WAIT_EVENT_NAMES] or rendered as [Unknown:0x...]. *)
Theorem wait_name_determines_code (c1 c2 : Z) :
  is_u32 c1 -> is_u32 c2 ->
  get_wait_event_name c1 = get_wait_event_name c2 -> c1 = c2.
Proof.
  intros H1 H2. unfold get_wait_event_name.
  rewrite !format_08x_u32 by assumption.
  destruct (WAIT_EVENT_NAMES !! c1) as [n1|] eqn:E1;
    destruct (WAIT_EVENT_NAMES !! c2) as [n2|] eqn:E2;
    unfold default; cbn [from_option id]; intros Heq.
  - subst n2. by apply (table_injective c1 c2 n1).
  - exfalso. by apply (table_name_is_not_unknown c1 n1 (fixed_hex 8 c2)).
  - exfalso. by apply (table_name_is_not_unknown c2 n2 (fixed_hex 8 c1)).
  - assert (fixed_hex 8 c1 = fixed_hex 8 c2) as Hhex.
    { by apply (append_cancel_l "Unknown:0x") in Heq. }
    rewrite <- (fixed_hex_value 8 c1), <- (fixed_hex_value 8 c2) by assumption.
    by rewrite Hhex.
Qed.

Lemma wait_name_determines_code_witness :
  get_wait_event_name 0x05000006 = get_wait_event_name (u32 (2 ^ 32 + 0x05000006)) /\
  0x05000006 = u32 (2 ^ 32 + 0x05000006).
Proof.
  assert (get_wait_event_name 0x05000006
          = get_wait_event_name (u32 (2 ^ 32 + 0x05000006))) as Hname
    by reflexivity.
  split; [exact Hname|].
  apply (wait_name_determines_code 0x05000006 (u32 (2 ^ 32 + 0x05000006))).
  - unfold is_u32. lia.
  - apply BpfFacts.u32_range.
  - exact Hname.
Defined.

End FormatExtras.

(** ** The merge, at its edges *)

Module MergeExtras.
Import Orchestrate Disk StringFacts Vocabulary DiskVocabulary MergeFacts DiskFacts.

Local Open Scope string_scope.
Local Open Scope list_scope.

Lemma has_cr_append a b : has_cr (a +:+ b) = has_cr a || has_cr b.
Proof.
  induction a as [|x a IH]; [done|]. rewrite append_cons. cbn [has_cr].
  rewrite IH. by rewrite orb_assoc.
Qed.

Lemma universal_newlines_has_no_cr s : has_cr (universal_newlines s) = false.
Proof.
  induction s as [|c s IH]; [done|]. cbn [universal_newlines].
  destruct (Ascii.eqb c CR) eqn:Hc.
  - destruct s as [|c' s']; [reflexivity|].
    destruct (Ascii.eqb c' LF) eqn:Hc'.
    + apply Ascii.eqb_eq in Hc' as ->. exact IH.
    + exact IH.
  - cbn [has_cr]. by rewrite Hc, IH.
Qed.

(** What a successful [open(path, 'w')] tells. *)
Lemma open_write_inr h out d o d0 :
  open_write h out d = inr (o, d0) ->
  writable h d out o /\ d0 = set_nodes (<[o := File ""]> (nodes d)) d.
Proof.
  unfold open_write, writable. destruct (locate h out) as [i|]; [|done].
  destruct (nodes d !! i) as [[c|]|] eqn:Hn; try done;
    case_bool_decide; try done; intros [= <- <-]; split_and!; eauto.
Qed.

(** A text that was read holds no carriage return. *)
Lemma read_file_no_cr h d p t : read_file h d p = inr t -> has_cr t = false.
Proof.
  unfold read_file. destruct (locate h p) as [i|]; [|done].
  destruct (nodes d !! i) as [[c|]|]; try done; case_bool_decide; try done.
  destruct (String.eqb c "" || decodes h c); [|done].
  intros [= <-]. apply universal_newlines_has_no_cr.
Qed.

Lemma nodes_print t d : nodes (print t d) = nodes d.
Proof. done. Qed.





(** X14: merging again with the same paths changes no file, when
    neither input is the output file under some name: the second call
    reads the same inputs and writes the same output. *)
Theorem merge_twice_is_merge_once (h : host) (d d1 : disk)
    (ext wait out : string) (o : N) :
  merge_traces h ext wait out d = Returned d1 ->
  locate h out = Some o ->
  locate h ext <> Some o -> locate h wait <> Some o ->
  exists d2, merge_traces h ext wait out d1 = Returned d2 /\ nodes d2 = nodes d1.
Proof.
  intros Hret Hl Hext Hwait.
  assert (writable h d out o) as Hw.
  { unfold merge_traces in Hret.
    destruct (open_write h out (print ("Merging traces into: " +:+ out) d))
      as [e|[o' d0]] eqn:Ho; [done|].
    apply open_write_inr in Ho as [Hw' _].
    destruct Hw' as (Hl' & Hd & Hden). rewrite Hl in Hl'.
    injection Hl' as <-. by split_and!. }
  rewrite (merge_traces_apart h ext wait out d o Hw Hext Hwait) in Hret.
  assert (forall x, nodes d1 = <[o := File x]> (nodes d) ->
            writable h d1 out o) as Hw1.
  { intros x Hx. destruct Hw as (_ & _ & Hden). split_and!; [done | | done].
    right. exists x. by rewrite Hx, lookup_insert_eq. }
  assert (forall x, nodes d1 = <[o := File x]> (nodes d) ->
            <[o := File x]> (nodes d1) = nodes d1) as Hsame.
  { intros x Hx. rewrite Hx. apply insert_insert_eq. }
  destruct (if os_path_exists h d ext then read_file h d ext else inr "")
    as [e|sql] eqn:Hsql; [done|].
  destruct (os_path_exists h d wait) eqn:Hex.
  - destruct (read_file h d wait) as [e|waits] eqn:Hwaits; [done|].
    injection Hret as <-.
    set (d1 := print _ (close o _ _)).
    assert (nodes d1 = <[o := File ((sql +:+ wait_header) +:+ waits)]> (nodes d))
      as Hd1 by (unfold d1; by rewrite nodes_print, nodes_close_open).
    rewrite (merge_traces_apart h ext wait out d1 o (Hw1 _ Hd1) Hext Hwait).
    rewrite (os_path_exists_other h d d1 ext o _ Hd1 Hext).
    rewrite (read_file_other h d d1 ext o _ Hd1 Hext).
    rewrite (os_path_exists_other h d d1 wait o _ Hd1 Hwait).
    rewrite (read_file_other h d d1 wait o _ Hd1 Hwait).
    rewrite Hsql, Hex, Hwaits.
    eexists. split; [reflexivity|].
    rewrite nodes_print, nodes_close_open. by apply Hsame.
  - injection Hret as <-.
    set (d1 := print _ (close o _ _)).
    assert (nodes d1 = <[o := File sql]> (nodes d))
      as Hd1 by (unfold d1; by rewrite nodes_print, nodes_close_open).
    rewrite (merge_traces_apart h ext wait out d1 o (Hw1 _ Hd1) Hext Hwait).
    rewrite (os_path_exists_other h d d1 ext o _ Hd1 Hext).
    rewrite (read_file_other h d d1 ext o _ Hd1 Hext).
    rewrite (os_path_exists_other h d d1 wait o _ Hd1 Hwait).
    rewrite Hsql, Hex.
    eexists. split; [reflexivity|].
    rewrite nodes_print, nodes_close_open. by apply Hsame.
Qed.

Lemma merge_twice_is_merge_once_witness :
  let h := utf8_host [("sql.trc", 1%N); ("wait.log", 2%N); ("out", 3%N)] in
  let d := {| nodes := {[ 1%N := File "X"; 2%N := File "Y" ]}; shown := [] |} in
  let d1 := disk_after (merge_traces h "sql.trc" "wait.log" "out" d) in
  content_at h d1 "out" = Some ("X" +:+ wait_header +:+ "Y") /\
  exists d2, merge_traces h "sql.trc" "wait.log" "out" d1 = Returned d2 /\
             nodes d2 = nodes d1.
Proof.
  intros h d d1. split; [vm_compute; reflexivity|].
  apply (merge_twice_is_merge_once h d d1 "sql.trc" "wait.log" "out" 3).
  - vm_compute. reflexivity.
  - reflexivity.
  - discriminate.
  - discriminate.
Defined.

(** X15: the output path may lead to the SQL trace itself, under the
    same name or another. The output is opened for writing, and so
    emptied, before the SQL trace is read: the result holds the wait
    section only, and what the SQL trace held is lost, whatever it
    was. *)
Theorem merge_into_sql_trace_loses_it (h : host) (d : disk)
    (ext wait out : string) (o : N) :
  writable h d out o ->
  locate h ext = Some o ->
  (o ∉ read_denied h) ->
  (forall j b, text_file h d wait j b -> o <> j ->
     exists d', merge_traces h ext wait out d = Returned d' /\
       nodes d' = <[o := File (wait_header +:+ universal_newlines b)]> (nodes d)) /\
  (missing h d wait o ->
     exists d', merge_traces h ext wait out d = Returned d' /\
       nodes d' = <[o := File ""]> (nodes d)).
Proof.
  intros Hw Hext Hread.
  set (d0 := set_nodes (<[o := File ""]> (nodes d))
               (print ("Merging traces into: " +:+ out) d)).
  assert (nodes d0 = <[o := File ""]> (nodes d)) as Hd0 by done.
  assert (os_path_exists h d0 ext = true) as Hex.
  { unfold os_path_exists. rewrite Hext, Hd0, lookup_insert_eq.
    by apply bool_decide_eq_true_2. }
  assert (read_file h d0 ext = inr "") as Hrd.
  { unfold read_file. rewrite Hext, Hd0, lookup_insert_eq.
    by rewrite (bool_decide_eq_false_2 _ Hread). }
  assert (forall p, locate h p <> Some o ->
            os_path_exists h d0 p = os_path_exists h d p) as Hoex.
  { intros p Hp. by apply (os_path_exists_other h d d0 p o (File "")). }
  split.
  - intros j b Hb Hj. unfold merge_traces.
    rewrite (open_write_writable h _ out o) by exact Hw.
    cbn [nodes print]. fold (print ("Merging traces into: " +:+ out) d). fold d0.
    rewrite Hex, Hrd.
    rewrite (Hoex wait (text_file_not_at _ _ _ _ _ _ Hb Hj)).
    rewrite (exists_text_file _ _ _ _ _ Hb).
    rewrite (read_file_other h d _ wait o
               (File (substring 0 (flush_point h ("" +:+ wait_header))
                        ("" +:+ wait_header)))).
    + rewrite (read_text_file _ _ _ _ _ Hb).
      eexists. split; [reflexivity|]. unfold d0.
      by rewrite nodes_print, nodes_close_open.
    + unfold close, set_nodes, d0, print. cbn [nodes]. apply insert_insert_eq.
    + exact (text_file_not_at _ _ _ _ _ _ Hb Hj).
  - intros (Hb & Hbo). unfold merge_traces.
    rewrite (open_write_writable h _ out o) by exact Hw.
    cbn [nodes print]. fold (print ("Merging traces into: " +:+ out) d). fold d0.
    rewrite Hex, Hrd, (Hoex wait Hbo), Hb.
    eexists. split; [reflexivity|]. unfold d0.
      by rewrite nodes_print, nodes_close_open.
Qed.

Lemma merge_into_sql_trace_loses_it_witness :
  let h := utf8_host [("sql.trc", 1%N); ("./sql.trc", 1%N); ("wait.log", 2%N)] in
  let d := {| nodes := {[ 1%N := File "precious"; 2%N := File "Y" ]};
              shown := [] |} in
  exists d', merge_traces h "sql.trc" "wait.log" "./sql.trc" d = Returned d' /\
    nodes d' = <[1%N := File (wait_header +:+ "Y")]> (nodes d).
Proof.
  intros h d.
  destruct (merge_into_sql_trace_loses_it h d "sql.trc" "wait.log" "./sql.trc" 1)
    as [H _].
  - split_and!; [reflexivity | right; by eexists | apply not_elem_of_empty].
  - reflexivity.
  - apply not_elem_of_empty.
  - apply (H 2%N "Y").
    + split_and!; [reflexivity | reflexivity | apply not_elem_of_empty | by right].
    + discriminate.
Defined.

(** X28: bytes that do not decode end the merge with
    [UnicodeDecodeError], after the output has been emptied. When it is
    the SQL trace that does not decode, the output is left empty; when
    it is the wait log, the output is left with the text of the SQL
    trace and the header. Only the first progress line is printed, and
    no other file changes. *)
Theorem merge_stops_at_undecodable_input (h : host) (d : disk)
    (ext wait out : string) (i o : N) (a : string) :
  writable h d out o ->
  o <> i ->
  a <> "" -> decodes h a = false ->
  (i ∉ read_denied h) ->
  nodes d !! i = Some (File a) ->
  (locate h ext = Some i ->
   exists d', merge_traces h ext wait out d = Raised UnicodeDecodeError d' /\
     nodes d' = <[o := File ""]> (nodes d) /\
     shown d' = shown d ++ [Stdout ("Merging traces into: " +:+ out +:+ nl)]) /\
  (forall j b, locate h wait = Some i -> text_file h d ext j b -> o <> j ->
   exists d', merge_traces h ext wait out d = Raised UnicodeDecodeError d' /\
     nodes d' = <[o := File (universal_newlines b +:+ wait_header)]> (nodes d) /\
     shown d' = shown d ++ [Stdout ("Merging traces into: " +:+ out +:+ nl)]).
Proof.
  intros Hw Hi Ha Hdec Hread Hn.
  assert (forall p, locate h p = Some i -> os_path_exists h d p = true) as Hex.
  { intros p Hp. unfold os_path_exists. rewrite Hp, Hn.
    by apply bool_decide_eq_true_2. }
  assert (forall p, locate h p = Some i ->
            read_file h d p = inl UnicodeDecodeError) as Hrd.
  { intros p Hp. unfold read_file. rewrite Hp, Hn.
    rewrite (bool_decide_eq_false_2 _ Hread), Hdec.
    destruct (String.eqb_spec a ""); done. }
  assert (forall p, locate h p = Some i -> locate h p <> Some o) as Hne.
  { intros p Hp. rewrite Hp. congruence. }
  assert (forall x t,
            shown (close o x (set_nodes (<[o := File ""]> (nodes d)) (print t d)))
            = shown d ++ [Stdout (t +:+ nl)]) as Hshown by done.
  split.
  - intros Hext. unfold merge_traces.
    rewrite (open_write_writable h _ out o) by exact Hw.
    cbn [nodes print]. fold (print ("Merging traces into: " +:+ out) d).
    rewrite (os_path_exists_other h d _ ext o (File "")) by (done || by apply Hne).
    rewrite (read_file_other h d _ ext o (File "")) by (done || by apply Hne).
    rewrite (Hex ext Hext), (Hrd ext Hext).
    eexists. split; [reflexivity|]. rewrite nodes_close_open, Hshown.
    by rewrite append_assoc.
  - intros j b Hwait Hb Hj.
    rewrite (merge_traces_apart h ext wait out d o Hw
               (text_file_not_at _ _ _ _ _ _ Hb Hj) (Hne wait Hwait)).
    rewrite (exists_text_file _ _ _ _ _ Hb), (read_text_file _ _ _ _ _ Hb).
    rewrite (Hex wait Hwait), (Hrd wait Hwait).
    eexists. split; [reflexivity|]. rewrite nodes_close_open, Hshown.
    by rewrite append_assoc.
Qed.

Lemma merge_stops_at_undecodable_input_witness :
  let h := utf8_host [("sql.trc", 1%N); ("wait.log", 2%N); ("out", 3%N)] in
  let d := {| nodes := {[ 1%N := File (bytes [88; 255; 90]%N); 2%N := File "Y" ]};
              shown := [] |} in
  exists d', merge_traces h "sql.trc" "wait.log" "out" d
               = Raised UnicodeDecodeError d' /\
    nodes d' = <[3%N := File ""]> (nodes d).
Proof.
  intros h d.
  destruct (merge_stops_at_undecodable_input h d "sql.trc" "wait.log" "out" 1 3
              (bytes [88; 255; 90]%N)) as [H _].
  - split_and!; [reflexivity | by left | apply not_elem_of_empty].
  - discriminate.
  - discriminate.
  - reflexivity.
  - apply not_elem_of_empty.
  - reflexivity.
  - destruct (H eq_refl) as (d' & Hr & Hn & _). exists d'. by split.
Defined.

(** X29: an output that cannot be opened ends the merge before
    anything is read or written: the exception of [open] comes out, no
    file has changed, and only the first progress line is printed. This
    is so when the output path leads nowhere, when it leads to a
    directory, and when the place is closed to writing. *)
Theorem merge_into_unwritable_output (h : host) (d : disk)
    (ext wait out : string) :
  let d0 := print ("Merging traces into: " +:+ out) d in
  (locate h out = None ->
   merge_traces h ext wait out d = Raised FileNotFoundError d0) /\
  (forall o, locate h out = Some o -> nodes d !! o = Some Directory ->
   merge_traces h ext wait out d = Raised IsADirectoryError d0) /\
  (forall o, locate h out = Some o -> nodes d !! o <> Some Directory ->
   o ∈ write_denied h ->
   merge_traces h ext wait out d = Raised PermissionError d0) /\
  nodes d0 = nodes d /\
  shown d0 = shown d ++ [Stdout ("Merging traces into: " +:+ out +:+ nl)].
Proof.
  intros d0. split_and!.
  - intros Hl. unfold merge_traces, open_write. by rewrite Hl.
  - intros o Hl Hn. unfold merge_traces, open_write. rewrite Hl.
    cbn [nodes print]. by rewrite Hn.
  - intros o Hl Hn Hden. unfold merge_traces, open_write. rewrite Hl.
    cbn [nodes print]. rewrite (bool_decide_eq_true_2 _ Hden).
    by destruct (nodes d !! o) as [[c|]|].
  - done.
  - unfold d0, print. cbn [shown]. by rewrite append_assoc.
Qed.

End MergeExtras.

(** ** The session, on every path *)

Module SessionExtras.
Import Orchestrate StringFacts Vocabulary SessionVocabulary MergeFacts
  SessionFacts.

Local Open Scope Z_scope.

(** [main] when the tracer script is not beside the orchestrator. *)
Lemma main_script_missing e a w :
  is_Some (files w !! arg_trace_file a) ->
  ebpf_script_exists e = false ->
  main e a w =
    (inr 1, eprint ("Error: eBPF script not found: " +:+ ebpf_script e)
              (banner a w)).
Proof.
  intros Hf Hs. run_main. rewrite bool_decide_eq_true_2 by done.
  cbn -[str_repeat print eprint merge_traces monitor]. rewrite Hs.
  reflexivity.
Qed.

(** [main] when the tracer has exited during the grace period. *)
Lemma main_tracer_exited e a w err :
  is_Some (files w !! arg_trace_file a) ->
  ebpf_script_exists e = true ->
  tracer_exited e = Some err ->
  main e a w =
    (inr 1, eprint err (eprint "Error starting eBPF tracer:" (after_grace e a w))).
Proof.
  intros Hf Hs Ht. run_main. rewrite bool_decide_eq_true_2 by done.
  cbn -[str_repeat print eprint merge_traces monitor]. rewrite Hs, Ht.
  reflexivity.
Qed.

Lemma banner_files a w : files (banner a w) = files w.
Proof. reflexivity. Qed.

Lemma in_log_banner x a w :
  x ∈ log (banner a w) -> x ∈ log w \/ exists t, x = Stdout t.
Proof.
  unfold banner, print, emit. cbn [log]. rewrite !elem_of_app.
  intros H. repeat (destruct H as [H|H]; [|right; apply list_elem_of_singleton in H; eauto]).
  by left.
Qed.

Lemma in_log_emit x y w : x ∈ log (emit y w) <-> x ∈ log w \/ x = y.
Proof. unfold emit. cbn [log]. by rewrite elem_of_app, list_elem_of_singleton. Qed.

Lemma in_log_print x t w :
  x ∈ log (print t w) <-> x ∈ log w \/ x = Stdout (t +:+ nl).
Proof. apply in_log_emit. Qed.

Lemma in_log_eprint x t w :
  x ∈ log (eprint t w) <-> x ∈ log w \/ x = Stderr (t +:+ nl).
Proof. apply in_log_emit. Qed.

(** X16: the exit status, once the command line is parsed. The
    orchestrator exits with status 1 when it does not run as root, when
    the SQL trace file is missing at the start, when the tracer script
    is not found, and when the tracer has exited within the grace
    period; so a status of 0 tells that the four checks have passed. *)
Theorem exit_status_tells_the_checks (e : env) (a : args) :
  (euid e <> 0 \/ fs_start e !! arg_trace_file a = None \/
   ebpf_script_exists e = false \/ is_Some (tracer_exited e) ->
   fst (program e a) = 1) /\
  (fst (program e a) = 0 ->
   euid e = 0 /\ is_Some (fs_start e !! arg_trace_file a) /\
   ebpf_script_exists e = true /\ tracer_exited e = None).
Proof.
  unfold program.
  destruct (Z.eqb_spec (euid e) 0) as [Hroot|Hroot]; cbn [negb].
  2: { cbn [fst]. split; [done | discriminate]. }
  destruct (fs_start e !! arg_trace_file a) as [content|] eqn:Hf.
  2: { rewrite main_without_trace_file by exact Hf. cbn [fst].
       split; [done | discriminate]. }
  destruct (ebpf_script_exists e) eqn:Hs.
  2: { rewrite main_script_missing by (cbn [files]; eauto). cbn [fst].
       split; [done | discriminate]. }
  destruct (tracer_exited e) as [err|] eqn:Ht.
  { rewrite (main_tracer_exited e a _ err) by (cbn [files]; eauto). cbn [fst].
    split; [done | discriminate]. }
  destruct (main_complete_session e a {| files := fs_start e; log := [] |})
    as (w1 & _ & _ & ->); [cbn [files]; eauto | done | done |].
  cbn [fst]. split.
  - intros [H | [H | [H | [x H]]]]; done.
  - intros _. split_and!; eauto.
Qed.

(** X17: a session that fails before the tracer is started changes no
    file and starts nothing. When the process is not root, when the SQL
    trace file is missing, or when the tracer script is not found, the
    status is 1, the files are those found at the start, and no
    [Popen], [SendSigint] or [WaitChild] is among the effects. *)
Theorem failed_start_changes_nothing (e : env) (a : args) :
  euid e <> 0 \/ fs_start e !! arg_trace_file a = None \/
  ebpf_script_exists e = false ->
  fst (program e a) = 1 /\
  files (snd (program e a)) = fs_start e /\
  ~ tracer_started (snd (program e a)) /\
  (SendSigint ∉ log (snd (program e a))) /\
  (WaitChild ∉ log (snd (program e a))).
Proof.
  intros Hfail. unfold program, tracer_started.
  destruct (Z.eqb_spec (euid e) 0) as [Hroot|Hroot]; cbn [negb].
  2: { cbn [fst snd]. split_and!; try done.
       - intros [argv H]. not_in_log H.
       - intros H. not_in_log H.
       - intros H. not_in_log H. }
  assert (forall x, (forall t, x <> Stdout t) ->
            x ∉ log (banner a {| files := fs_start e; log := [] |})) as Hbanner.
  { intros x Hx Hin. apply in_log_banner in Hin as [Hin | [t ->]].
    - by apply elem_of_nil in Hin.
    - by apply (Hx t). }
  destruct (fs_start e !! arg_trace_file a) as [content|] eqn:Hf.
  2: { rewrite main_without_trace_file by exact Hf. cbn [fst snd].
       split_and!; try done.
       - intros [argv H]. not_in_log H.
       - intros H. not_in_log H.
       - intros H. not_in_log H. }
  destruct (ebpf_script_exists e) eqn:Hs.
  2: { rewrite main_script_missing by (cbn [files]; eauto). cbn [fst snd].
       assert (forall x, (forall t, x <> Stdout t) -> (forall t, x <> Stderr t) ->
                 x ∉ log (eprint ("Error: eBPF script not found: " +:+ ebpf_script e)
                            (banner a {| files := fs_start e; log := [] |})))
         as Hlog.
       { intros x Hx1 Hx2 H. unfold eprint, emit in H. cbn [log] in H.
         apply elem_of_app in H as [H|H].
         - by apply (Hbanner x Hx1).
         - apply list_elem_of_singleton in H. by apply (Hx2 _ H). }
       split_and!; try done.
       - intros [argv H]. by apply (Hlog (Popen argv)).
       - by apply Hlog.
       - by apply Hlog. }
  destruct Hfail as [H | [H | H]]; done.
Qed.

Lemma failed_start_changes_nothing_witness :
  let a := {| arg_pid := 4242; arg_trace_file := "/tmp/pg.trc";
              arg_output := None; arg_wait_only := false |} in
  let e := {| euid := 0; fs_start := {[ "/tmp/pg.trc" := "X" ]}%string;
              ebpf_script := "/opt/pg_trace/pg_trace_waits.py";
              ebpf_script_exists := false;
              tracer_exited := None;
              polls := []; fs_at_stop := ∅ |} in
  fst (program e a) = 1 /\ files (snd (program e a)) = fs_start e /\
  ~ tracer_started (snd (program e a)).
Proof.
  intros a e.
  destruct (failed_start_changes_nothing e a) as (H1 & H2 & H3 & _).
  - right. right. reflexivity.
  - split; [exact H1|]. split; [exact H2 | exact H3].
Defined.



(** X21: the monitoring loop is silent while nothing changes. Over
    polls in which the SQL trace file is missing or has the size last
    reported, it prints nothing and only sleeps one second per poll; in
    [main] the size last reported starts at 0, so an empty trace file is
    never announced. *)
Theorem monitor_is_silent_without_change (trace_file : string)
    (snaps : list (gmap string string)) (last_size : nat) (w : world) :
  Forall (fun fs => fs !! trace_file = None \/
                    exists c, fs !! trace_file = Some c /\
                              String.length c = last_size) snaps ->
  monitor trace_file snaps last_size w =
    (inl tt, {| files := default (files w) (last snaps);
                log := log w ++ replicate (length snaps) (Sleep 1) |}).
Proof.
  revert w. induction snaps as [|fs snaps IH]; intros w Hall.
  - cbn [monitor length replicate last default]. rewrite app_nil_r.
    by destruct w.
  - apply Forall_cons in Hall as [Hfs Hall].
    cbn [monitor]. unfold mbind, M_bind, lift, ask.
    cbn [set_files files].
    assert (forall w0 : world,
              files w0 = fs ->
              monitor trace_file snaps last_size (emit (Sleep 1) w0)
              = (inl tt, {| files := default (files w) (last (fs :: snaps));
                            log := log w0 ++ replicate (length (fs :: snaps)) (Sleep 1) |}))
      as Hrest.
    { intros w0 Hw0. rewrite IH by exact Hall.
      assert (default (files (emit (Sleep 1) w0)) (last snaps)
              = default (files w) (last (fs :: snaps))) as ->.
      { unfold emit. cbn [files]. rewrite Hw0. clear.
        destruct snaps as [|g snaps]; [reflexivity|].
        rewrite last_cons_cons.
        destruct (last (g :: snaps)) eqn:Hlast; [reflexivity|].
        apply last_None in Hlast. discriminate Hlast. }
      unfold emit. cbn [log length replicate].
      by rewrite <- app_assoc. }
    destruct Hfs as [Hnone | (c & Hc & Hlen)].
    + rewrite Hnone. apply (Hrest (set_files fs w)). reflexivity.
    + rewrite Hc. rewrite bool_decide_eq_true_2 by exact Hlen.
      unfold mret, M_ret. rewrite Hlen.
      apply (Hrest (set_files fs w)). reflexivity.
Qed.

Lemma monitor_is_silent_without_change_witness :
  monitor "/tmp/pg.trc"
    [ ∅; {[ "/tmp/pg.trc" := "" ]}%string; {[ "/tmp/pg.trc" := "" ]}%string ]
    0 {| files := ∅; log := [] |}
  = (inl tt, {| files := {[ "/tmp/pg.trc" := "" ]}%string;
                log := [Sleep 1; Sleep 1; Sleep 1] |}).
Proof.
  assert (Forall (fun fs : gmap string string =>
                    fs !! "/tmp/pg.trc"%string = None \/
                    exists c, fs !! "/tmp/pg.trc"%string = Some c /\
                              String.length c = 0%nat)
            [ ∅; {[ "/tmp/pg.trc" := "" ]}%string; {[ "/tmp/pg.trc" := "" ]}%string ])
    as Hall.
  { apply Forall_cons. split; [left; reflexivity|].
    apply Forall_cons. split; [right; exists ""%string; split; reflexivity|].
    apply Forall_cons. split; [right; exists ""%string; split; reflexivity|].
    apply Forall_nil_2. }
  exact (monitor_is_silent_without_change "/tmp/pg.trc" _ 0%nat
           {| files := ∅; log := [] |} Hall).
Defined.

End SessionExtras.

(** ** The tracer program *)

Module TracerExtras.
Import Bpf Waits Orchestrate Tracer StringFacts Vocabulary SessionVocabulary.

Local Open Scope Z_scope.

(** X22: where the binary comes from when [which postgres] fails. The
    result is the first of the three common locations that exists, in
    the order of the source, and [None] exactly when none of them
    exists. *)
Theorem binary_from_common_locations (existing : gset string) :
  match find_postgres_binary None existing with
  | Some path =>
      exists before after,
        common_locations = before ++ path :: after /\
        path ∈ existing /\ Forall (fun q => q ∉ existing) before
  | None => Forall (fun q => q ∉ existing) common_locations
  end.
Proof.
  unfold find_postgres_binary, common_locations.
  case_bool_decide as H1.
  { exists [], (tail common_locations). split_and!; [reflexivity | done | constructor]. }
  case_bool_decide as H2.
  { eexists [_], _. split_and!; [reflexivity | done | by repeat constructor]. }
  case_bool_decide as H3.
  { eexists [_; _], _. split_and!; [reflexivity | done | by repeat constructor]. }
  by repeat constructor.
Qed.

Lemma redirect_writing w0 r path :
  redirect path {| tworld := w0; redirected := r |} = writing w0 (log w0) path "".
Proof. reflexivity. Qed.

Lemma tprint_writing w0 effects path content text :
  tprint text (writing w0 effects path content)
  = writing w0 effects path (content +:+ text +:+ nl).
Proof.
  unfold tprint, writing, set_files. cbn [redirected tworld files log].
  rewrite lookup_insert_eq, insert_insert_eq. reflexivity.
Qed.

Lemma teprint_writing w0 effects path content text :
  teprint text (writing w0 effects path content)
  = writing w0 (effects ++ [Stderr (text +:+ nl)]) path content.
Proof. reflexivity. Qed.

Lemma foldl_on_event_writing w0 effects path content rs :
  foldl on_event (writing w0 effects path content) rs
  = writing w0 effects path (content +:+ event_lines rs).
Proof.
  revert content. induction rs as [|r rs IH]; intros content.
  - cbn [foldl event_lines]. by rewrite append_nil_r.
  - cbn [foldl event_lines]. unfold on_event at 2. rewrite tprint_writing, IH.
    by rewrite !append_assoc.
Qed.

(** The state in which the tracer loads the eBPF program, when the
    binary is [bin] and the output goes to [path]. *)
Lemma main_found_redirected e a w c bin path :
  find_postgres_binary (which_postgres e) (existing_paths e) = Some (String c bin) ->
  targ_output a = Some path -> path <> ""%string ->
  exists effects,
    effects = log w ++
      (if targ_verbose a
       then [Stdout ("Using PostgreSQL binary: " +:+ String c bin +:+ nl);
             Stdout ("Tracing PID: " +:+ pretty (targ_pid a) +:+ nl)]
       else []) /\
    main e a (tracer_start w) =
      match bpf_load_error e with
      | Some err =>
          (1, teprint "Make sure you have BCC installed and running as root"
                (teprint ("Error loading eBPF program: " +:+ err)
                   (writing w effects path "")))
      | None =>
          match attach_error e with
          | Some err =>
              (1, teprint "  3. You have root privileges"
                    (teprint "  2. Binary has symbols (not stripped)"
                       (teprint "  1. PID is correct and process is running"
                          (teprint "Make sure:"
                             (teprint ("Error attaching to PostgreSQL: " +:+ err)
                                (writing w effects path ""))))))
          | None => (0, writing w effects path (tracer_log a (delivered e)))
          end
      end.
Proof.
  intros Hfind Hout Hpath. eexists. split; [reflexivity|].
  unfold main. rewrite Hfind, Hout.
  destruct path as [|p0 path]; [done|].
  assert (forall st0 : tracer_state,
            st0 = {| tworld := {| files := files w;
                                  log := log w ++
                                    (if targ_verbose a
                                     then [Stdout ("Using PostgreSQL binary: "
                                                     +:+ String c bin +:+ nl);
                                           Stdout ("Tracing PID: "
                                                     +:+ pretty (targ_pid a) +:+ nl)]
                                     else []) |};
                     redirected := None |} ->
            redirect (String p0 path) st0
            = writing w (log w ++
                           (if targ_verbose a
                            then [Stdout ("Using PostgreSQL binary: "
                                            +:+ String c bin +:+ nl);
                                  Stdout ("Tracing PID: "
                                            +:+ pretty (targ_pid a) +:+ nl)]
                            else [])) (String p0 path) "") as Hred.
  { intros st0 ->. reflexivity. }
  rewrite Hred.
  2: { unfold tracer_start, tprint, print, emit. cbn [redirected tworld files log].
       destruct (targ_verbose a); cbn [redirected tworld files log].
       - rewrite <- app_assoc. rewrite !append_assoc. reflexivity.
       - rewrite app_nil_r. by destruct w. }
  destruct (bpf_load_error e) as [err|]; [reflexivity|].
  destruct (attach_error e) as [err|]; [reflexivity|].
  f_equal. unfold tracer_log.
  destruct (targ_verbose a).
  - rewrite !tprint_writing, foldl_on_event_writing, tprint_writing.
    f_equal. cbn [String.append]. rewrite !append_assoc. reflexivity.
  - rewrite !tprint_writing, foldl_on_event_writing, tprint_writing.
    f_equal. cbn [String.append]. rewrite !append_assoc. reflexivity.
Qed.

Lemma not_found_cases e :
  ~ binary_found e ->
  find_postgres_binary (which_postgres e) (existing_paths e) = None \/
  find_postgres_binary (which_postgres e) (existing_paths e) = Some ""%string.
Proof.
  intros Hnot. unfold binary_found in Hnot.
  destruct (find_postgres_binary _ _) as [[|c bin]|]; [by right | | by left].
  exfalso. apply Hnot. by eexists.
Qed.

Lemma main_not_found e a st :
  ~ binary_found e ->
  main e a st =
    (1, teprint "Please specify pg_config or postgres path"
          (teprint "Error: Could not find postgres binary" st)).
Proof.
  intros Hnot. unfold main.
  by destruct (not_found_cases e Hnot) as [-> | ->].
Qed.

(** X23: the exit status of the tracer, once its command line is
    parsed. It exits with status 1 when no postgres binary is found,
    when the eBPF program does not load, and when the probes cannot be
    attached; so a status of 0 tells that the binary was found, the
    program loaded and the probes attached. *)
Theorem tracer_exit_status_tells_the_start (e : tracer_env) (a : tracer_args)
    (st : tracer_state) :
  (~ binary_found e \/ is_Some (bpf_load_error e) \/ is_Some (attach_error e) ->
   fst (main e a st) = 1) /\
  (fst (main e a st) = 0 ->
   binary_found e /\ bpf_load_error e = None /\ attach_error e = None).
Proof.
  destruct (find_postgres_binary (which_postgres e) (existing_paths e))
    as [[|c bin]|] eqn:Hfind.
  1, 3: (assert (~ binary_found e) as Hnot
           by (intros (b & Hb & Hne); unfold binary_found in *; congruence);
         rewrite main_not_found by exact Hnot; cbn [fst];
         split; [done | discriminate]).
  assert (binary_found e) as Hfound by (exists (String c bin); split; [exact Hfind | done]).
  unfold main. rewrite Hfind.
  destruct (bpf_load_error e) as [err|]; cbn [fst].
  { split; [done | discriminate]. }
  destruct (attach_error e) as [err|]; cbn [fst].
  { split; [done | discriminate]. }
  split.
  - intros [H | [[x H] | [x H]]]; done.
  - intros _. by split_and!.
Qed.

(** X24: without a binary the tracer stops before it touches anything:
    it exits with status 1, the only effects are the two lines on the
    standard error, and the file named by [-o] is neither created nor
    truncated. *)
Theorem tracer_without_binary_touches_nothing (e : tracer_env)
    (a : tracer_args) (w : world) :
  ~ binary_found e ->
  fst (main e a (tracer_start w)) = 1 /\
  files (tworld (snd (main e a (tracer_start w)))) = files w /\
  log (tworld (snd (main e a (tracer_start w)))) =
    log w ++ [Stderr ("Error: Could not find postgres binary" +:+ nl);
              Stderr ("Please specify pg_config or postgres path" +:+ nl)].
Proof.
  intros Hnot. rewrite main_not_found by exact Hnot.
  cbn [fst snd]. split; [reflexivity|]. split; [reflexivity|].
  unfold teprint, eprint, emit. cbn [tworld log]. by rewrite <- app_assoc.
Qed.

Lemma tracer_without_binary_touches_nothing_witness :
  let e := {| which_postgres := Some (" " +:+ nl)%string; existing_paths := ∅;
              bpf_load_error := None; attach_error := None; delivered := [] |} in
  let a := {| targ_pid := 4242; targ_verbose := false;
              targ_output := Some "/tmp/w.log"%string |} in
  let w := {| files := {[ "/tmp/w.log" := "old log" ]}%string; log := [] |} in
  files (tworld (snd (main e a (tracer_start w)))) !! "/tmp/w.log"%string
  = Some "old log"%string.
Proof.
  intros e a w.
  destruct (tracer_without_binary_touches_nothing e a w) as (_ & H & _).
  - intros (bin & Hbin & Hne). vm_compute in Hbin. congruence.
  - rewrite H. reflexivity.
Defined.





Lemma plain_start w : plain w (tracer_start w).
Proof. by split. Qed.

Lemma plain_tprint w text st : plain w st -> plain w (tprint text st).
Proof. intros [H1 H2]. unfold plain, tprint. rewrite H1. by split. Qed.

Lemma plain_teprint w text st : plain w st -> plain w (teprint text st).
Proof. intros [H1 H2]. by split. Qed.

Lemma plain_foldl w st rs : plain w st -> plain w (foldl on_event st rs).
Proof.
  revert st. induction rs as [|r rs IH]; intros st H; [exact H|].
  cbn [foldl]. apply IH. by apply plain_tprint.
Qed.

(** X27: without [-o], or with an empty [-o], the tracer writes to no
    file on any of its paths, failing or not: all its output is on the
    standard streams. *)
Theorem tracer_without_output_writes_no_file (e : tracer_env)
    (a : tracer_args) (w : world) :
  targ_output a = None \/ targ_output a = Some ""%string ->
  files (tworld (snd (main e a (tracer_start w)))) = files w /\
  redirected (snd (main e a (tracer_start w))) = None.
Proof.
  intros Hout.
  assert (plain w (snd (main e a (tracer_start w)))) as [H1 H2]; [|by split].
  unfold main.
  destruct (find_postgres_binary _ _) as [[|c bin]|];
    destruct Hout as [Ho | Ho]; rewrite ?Ho;
    destruct (targ_verbose a);
    destruct (bpf_load_error e);
    destruct (attach_error e);
    cbn [snd];
    repeat first [ apply plain_start | apply plain_tprint
                 | apply plain_teprint | apply plain_foldl ].
Qed.

Lemma tracer_without_output_writes_no_file_witness :
  let e := {| which_postgres := Some ("/usr/bin/postgres" +:+ nl)%string;
              existing_paths := ∅;
              bpf_load_error := None; attach_error := None; delivered := [] |} in
  let a := {| targ_pid := 100; targ_verbose := true; targ_output := Some ""%string |} in
  let w := {| files := {[ "/tmp/w.log" := "old log" ]}%string; log := [] |} in
  files (tworld (snd (main e a (tracer_start w)))) = files w.
Proof.
  intros e a w.
  destruct (tracer_without_output_writes_no_file e a w) as [H _];
    [right; reflexivity | exact H].
Defined.

End TracerExtras.
